(** * Verification of the pcap test-data generator and its mock upload endpoint

    The development embeds [data_gen.py] (fixture and ledger-record
    generation, the dispatch loop) and [data_rx.py] (the upload stub) as
    executable Rocq functions and proves the properties the specification
    states about them.

    Conventions of the embedding:
    - a Python [str] or [bytes] value is a Rocq [string], read as the byte
      sequence of its UTF-8 encoding;
    - a Python [int] is a [Z];
    - the operating system (clock, timezone, file system, I/O failures, the
      keys typed) is an explicit [World] value threaded through the code by
      a small state monad;
    - console output ([print]) is not part of the model. *)

From Stdlib Require Import ZArith NArith String Ascii List Lia Bool.
From Stdlib Require Import DecimalString.
From stdpp Require Import gmap strings.
Import ListNotations.

Local Open Scope list_scope.
Local Open Scope string_scope.

(** Let [simpl] compute the concatenation of a string that starts with
    known characters. *)
Local Arguments String.append !s1 s2 : simpl nomatch.

(* ===================================================================== *)
(** * SHA-256 ([hashlib.sha256], FIPS 180-4) *)
(* ===================================================================== *)

Module SHA256.
Local Open Scope N_scope.

Definition mask32 : N := 0xFFFFFFFF.
Definition add32 (x y : N) : N := N.land (x + y) mask32.
Definition not32 (x : N) : N := N.lxor x mask32.
Definition shr (n x : N) : N := N.shiftr x n.
Definition rotr (n x : N) : N :=
  N.lor (N.shiftr x n) (N.land (N.shiftl x (32 - n)) mask32).

Definition Ch (x y z : N) : N := N.lxor (N.land x y) (N.land (not32 x) z).
Definition Maj (x y z : N) : N :=
  N.lxor (N.lxor (N.land x y) (N.land x z)) (N.land y z).
Definition bsig0 (x : N) : N := N.lxor (N.lxor (rotr 2 x) (rotr 13 x)) (rotr 22 x).
Definition bsig1 (x : N) : N := N.lxor (N.lxor (rotr 6 x) (rotr 11 x)) (rotr 25 x).
Definition ssig0 (x : N) : N := N.lxor (N.lxor (rotr 7 x) (rotr 18 x)) (shr 3 x).
Definition ssig1 (x : N) : N := N.lxor (N.lxor (rotr 17 x) (rotr 19 x)) (shr 10 x).

(** The constants of FIPS 180-4 are defined from the first prime numbers:
    the initial hash value holds the first 32 bits of the fractional parts of
    the square roots of the first eight primes (section 5.3.3), the round
    constants those of the cube roots of the first sixty-four (section
    4.2.2). *)
Fixpoint no_divisor (fuel : nat) (d n : N) : bool :=
  match fuel with
  | O => true
  | S fuel' =>
      if n <? d * d then true
      else negb (n mod d =? 0) && no_divisor fuel' (d + 1) n
  end.

Definition is_prime (n : N) : bool := (2 <=? n) && no_divisor (N.to_nat n) 2 n.

(** The primes among the [fuel] numbers from [n] on. *)
Fixpoint primes_from (fuel : nat) (n : N) : list N :=
  match fuel with
  | O => []
  | S fuel' =>
      if is_prime n then n :: primes_from fuel' (n + 1) else primes_from fuel' (n + 1)
  end.

(** The first sixty-four primes: those from 2 to 311. *)
Definition primes64 : list N := primes_from 310 2.

(** The integer cube root, found bit by bit from bit [b - 1] down. *)
Fixpoint cbrt_bits (b : nat) (r n : N) : N :=
  match b with
  | O => r
  | S b' =>
      let c := r + 2 ^ N.of_nat b' in
      cbrt_bits b' (if c * c * c <=? n then c else r) n
  end.

Definition frac_cbrt32 (p : N) : N := N.land (cbrt_bits 40 0 (p * 2 ^ 96)) mask32.
Definition frac_sqrt32 (p : N) : N := N.land (N.sqrt (p * 2 ^ 64)) mask32.

Definition K : list N := map frac_cbrt32 primes64.
Definition H0 : list N := map frac_sqrt32 (firstn 8 primes64).

(** Big-endian encoding of [x] on [n] bytes. *)
Fixpoint be_bytes (n : nat) (x : N) : list N :=
  match n with
  | O => []
  | S n' => N.land (N.shiftr x (8 * N.of_nat n')) 0xFF :: be_bytes n' x
  end.

(** Padding: one 0x80 byte, zero bytes up to 56 modulo 64, then the
    message length in bits on 8 bytes. *)
Definition pad (msg : list N) : list N :=
  let len := N.of_nat (length msg) in
  let zeros := N.to_nat ((55 + 64 - len mod 64) mod 64) in
  msg ++ [0x80] ++ repeat 0 zeros ++ be_bytes 8 (8 * len).

Fixpoint be_word (bs : list N) : N :=
  match bs with
  | [] => 0
  | b :: bs' => N.lor (N.shiftl b (8 * N.of_nat (length bs'))) (be_word bs')
  end.

(** Cut a byte list into big-endian 32-bit words ([fuel] bounds the
    number of words). *)
Fixpoint words (fuel : nat) (bs : list N) : list N :=
  match fuel, bs with
  | S f, _ :: _ => be_word (firstn 4 bs) :: words f (skipn 4 bs)
  | _, _ => []
  end.

Fixpoint chunks16 (fuel : nat) (ws : list N) : list (list N) :=
  match fuel, ws with
  | S f, _ :: _ => firstn 16 ws :: chunks16 f (skipn 16 ws)
  | _, _ => []
  end.

(** Message schedule: extend the 16 block words to 64. *)
Fixpoint schedule (n : nat) (w : list N) : list N :=
  match n with
  | O => w
  | S n' =>
      let t := length w in
      let g i := nth (t - i) w 0 in
      schedule n'
        (w ++ [add32 (add32 (ssig1 (g 2%nat)) (g 7%nat))
                     (add32 (ssig0 (g 15%nat)) (g 16%nat))])
  end.

Record regs := Regs { ra : N; rb : N; rc : N; rd : N; re : N; rf : N; rg : N; rh : N }.

Definition round (s : regs) (kw : N * N) : regs :=
  let '(k, w) := kw in
  let t1 := add32 (add32 (add32 (rh s) (bsig1 (re s))) (add32 (Ch (re s) (rf s) (rg s)) k)) w in
  let t2 := add32 (bsig0 (ra s)) (Maj (ra s) (rb s) (rc s)) in
  Regs (add32 t1 t2) (ra s) (rb s) (rc s) (add32 (rd s) t1) (re s) (rf s) (rg s).

Definition compress (h : regs) (block : list N) : regs :=
  let s := fold_left round (combine K (schedule 48 block)) h in
  Regs (add32 (ra h) (ra s)) (add32 (rb h) (rb s)) (add32 (rc h) (rc s))
       (add32 (rd h) (rd s)) (add32 (re h) (re s)) (add32 (rf h) (rf s))
       (add32 (rg h) (rg s)) (add32 (rh h) (rh s)).

Definition init : regs :=
  Regs (nth 0 H0 0) (nth 1 H0 0) (nth 2 H0 0) (nth 3 H0 0)
       (nth 4 H0 0) (nth 5 H0 0) (nth 6 H0 0) (nth 7 H0 0).

Definition bytes_of_string (s : string) : list N :=
  map N_of_ascii (list_ascii_of_string s).

(** The digest as eight 32-bit words. *)
Definition digest (msg : string) : list N :=
  let bs := pad (bytes_of_string msg) in
  let ws := words (length bs) bs in
  let r := fold_left compress (chunks16 (length ws) ws) init in
  [ra r; rb r; rc r; rd r; re r; rf r; rg r; rh r].

Definition hex_digit (n : N) : ascii :=
  nth (N.to_nat n) (list_ascii_of_string "0123456789abcdef") "0"%char.

Fixpoint hex_nibbles (n : nat) (x : N) : list ascii :=
  match n with
  | O => []
  | S n' => hex_digit (N.land (N.shiftr x (4 * N.of_nat n')) 0xF) :: hex_nibbles n' x
  end.

(** [hashlib.sha256(msg).hexdigest()]: 64 lowercase hexadecimal digits. *)
Definition hexdigest (msg : string) : string :=
  string_of_list_ascii (concat (map (hex_nibbles 8) (digest msg))).

End SHA256.

(* ===================================================================== *)
(** * Text helpers (Python [str] operations used by the program) *)
(* ===================================================================== *)

Module Text.

(** The newline character and the one-character string holding it. *)
Definition nl : ascii := "010"%char.
Definition NL : string := String nl EmptyString.

(** [str(n)] for a Python [int]. *)
Definition dec (z : Z) : string := NilZero.string_of_int (Z.to_int z).

(** Zero-padding on the left up to [width] characters. *)
Definition zfill (width : nat) (s : string) : string :=
  string_of_list_ascii (repeat "0"%char (width - String.length s)) ++ s.

(** [s.split(sep)] for a one-character separator: never empty. *)
Fixpoint split_on (sep : ascii) (s : string) : list string :=
  match s with
  | EmptyString => [EmptyString]
  | String c s' =>
      if Ascii.eqb c sep then EmptyString :: split_on sep s'
      else match split_on sep s' with
           | [] => [String c EmptyString]
           | f :: fs => String c f :: fs
           end
  end.

(** The physical lines of a text: the pieces ended by a newline, and the
    unterminated rest when there is one. *)
Fixpoint lines (s : string) : list string :=
  match s with
  | EmptyString => []
  | String c s' =>
      if Ascii.eqb c nl then EmptyString :: lines s'
      else match lines s' with
           | [] => [String c EmptyString]
           | l :: ls => String c l :: ls
           end
  end.

Fixpoint ends_with (c : ascii) (s : string) : bool :=
  match s with
  | EmptyString => false
  | String a EmptyString => Ascii.eqb a c
  | String _ s' => ends_with c s'
  end.

Fixpoint contains (c : ascii) (s : string) : bool :=
  match s with
  | EmptyString => false
  | String a s' => Ascii.eqb a c || contains c s'
  end.

Fixpoint all_chars (p : ascii -> bool) (s : string) : bool :=
  match s with
  | EmptyString => true
  | String a s' => p a && all_chars p s'
  end.

Definition is_digit (c : ascii) : bool :=
  let n := nat_of_ascii c in (48 <=? n)%nat && (n <=? 57)%nat.

Definition is_lower_hex (c : ascii) : bool :=
  let n := nat_of_ascii c in
  ((48 <=? n)%nat && (n <=? 57)%nat) || ((97 <=? n)%nat && (n <=? 102)%nat).

(** One physical line cut at its commas. *)
Definition csv_fields (line : string) : list string :=
  split_on ","%char line.

Definition line_count (s : string) : nat := length (lines s).

(** [c.lower()] on one byte: only the ASCII capitals change.  A key
    outside ASCII may be changed by Python's Unicode lowering, but never
    into one of the one-byte selectors the dispatch loop compares with,
    so the dispatch is the same. *)
Definition lower_ascii (c : ascii) : ascii :=
  let n := nat_of_ascii c in
  if (65 <=? n)%nat && (n <=? 90)%nat then ascii_of_nat (n + 32) else c.

Fixpoint lower (s : string) : string :=
  match s with
  | EmptyString => EmptyString
  | String c s' => String (lower_ascii c) (lower s')
  end.

End Text.
Import Text.

(* ===================================================================== *)
(** * Calendar time ([time.localtime], [time.strftime]) *)
(* ===================================================================== *)

Module Time.
Local Open Scope Z_scope.

(** The fields of [time.struct_time] that ['%Y%m%d-%H%M%S'] reads. *)
Record struct_time := {
  tm_year : Z; tm_mon : Z; tm_mday : Z;
  tm_hour : Z; tm_min : Z; tm_sec : Z }.

(** Proleptic Gregorian date of a day number counted from 1970-01-01. *)
Definition civil_from_days (days : Z) : Z * Z * Z :=
  let z := days + 719468 in
  let era := z / 146097 in
  let doe := z mod 146097 in
  let yoe := (doe - doe / 1460 + doe / 36524 - doe / 146096) / 365 in
  let doy := doe - (365 * yoe + yoe / 4 - yoe / 100) in
  let mp := (5 * doy + 2) / 153 in
  let d := doy - (153 * mp + 2) / 5 + 1 in
  let m := if mp <? 10 then mp + 3 else mp - 9 in
  let y := yoe + era * 400 + (if m <=? 2 then 1 else 0) in
  (y, m, d).

Definition gmtime (secs : Z) : struct_time :=
  let '(y, m, d) := civil_from_days (secs / 86400) in
  let r := secs mod 86400 in
  {| tm_year := y; tm_mon := m; tm_mday := d;
     tm_hour := r / 3600; tm_min := (r mod 3600) / 60; tm_sec := r mod 60 |}.

(** Local time under a timezone rule [off] that gives the offset from
    UTC, in seconds, in force at an instant. *)
Definition localtime_of (off : Z -> Z) (secs : Z) : struct_time :=
  gmtime (secs + off secs).

(** [time.strftime('%Y%m%d-%H%M%S', tm)]. *)
Definition strftime_stamp (tm : struct_time) : string :=
  zfill 4 (dec (tm_year tm)) ++ zfill 2 (dec (tm_mon tm)) ++ zfill 2 (dec (tm_mday tm))
  ++ "-" ++ zfill 2 (dec (tm_hour tm)) ++ zfill 2 (dec (tm_min tm)) ++ zfill 2 (dec (tm_sec tm)).

Definition utc : Z -> Z := fun _ => 0.

End Time.
Import Time.

(* ===================================================================== *)
(** * The operating system as seen by the program *)
(* ===================================================================== *)

(** How one file operation ends: normally, with an exception raised by
    [open], or with an exception raised after [open] succeeded and
    [written] bytes of the data reached the file. *)
Inductive fault := NoFault | FailOpen | FailWrite (written : nat).

(** The file-system calls the program makes, with their outcome. *)
Inductive event :=
| EvWriteBinary (path data : string) (f : fault)   (* open(path, "wb"); write(data) *)
| EvAppend (path text : string) (f : fault)        (* open(path, "a"); write(text) *)
| EvTruncate (path : string) (f : fault)           (* open(path, "w"); truncate(0) *)
| EvMkdir (path : string) (f : fault).             (* mkdir(path, exist_ok=True) *)

Record World := mkWorld {
  clock : nat -> Z;            (* the n-th sample of the system clock, in ns since the epoch *)
  clock_reads : nat;           (* samples taken so far *)
  utc_offset : Z -> Z;         (* the timezone rule of the process *)
  io_fault : nat -> fault;     (* how the n-th file-system call ends *)
  io_calls : nat;              (* file-system calls made so far *)
  files : gmap string string;  (* regular files: path to content *)
  trace : list event           (* file-system calls made so far, oldest first *)
}.

(** State monad over the world. *)
Definition M (A : Type) : Type := World -> A * World.
Definition ret {A} (a : A) : M A := fun w => (a, w).
Definition bind {A B} (m : M A) (k : A -> M B) : M B :=
  fun w => let '(a, w') := m w in k a w'.

Notation "x <- m ;; k" := (bind m (fun x => k))
  (at level 62, m at next level, right associativity).
Notation "m ;;; k" := (bind m (fun _ => k))
  (at level 62, right associativity).

Module Sys.
Local Open Scope Z_scope.

(** One sample of the system clock. *)
Definition sample : M Z := fun w =>
  (clock w (clock_reads w),
   mkWorld (clock w) (S (clock_reads w)) (utc_offset w)
           (io_fault w) (io_calls w) (files w) (trace w)).

(** [int(time.time())]: the sample in seconds, truncated towards zero
    (the rounding of the intermediate float is not modelled). *)
Definition int_time_time : M Z :=
  ns <- sample ;; ret (Z.quot ns 1000000000).

(** [time.localtime()]: a fresh sample, floored to the second, in local time. *)
Definition time_localtime : M struct_time := fun w =>
  let '(ns, w') := sample w in
  (localtime_of (utc_offset w) (ns / 1000000000), w').

(** The outcome of the next file-system call. *)
Definition next_fault : M fault := fun w =>
  (io_fault w (io_calls w),
   mkWorld (clock w) (clock_reads w) (utc_offset w)
           (io_fault w) (S (io_calls w)) (files w) (trace w)).

Definition set_file (path content : string) : M unit := fun w =>
  (tt, mkWorld (clock w) (clock_reads w) (utc_offset w)
               (io_fault w) (io_calls w) (<[path := content]> (files w)) (trace w)).

Definition log (e : event) : M unit := fun w =>
  (tt, mkWorld (clock w) (clock_reads w) (utc_offset w)
               (io_fault w) (io_calls w) (files w) (trace w ++ [e])).

Definition read_file (path : string) : M (option string) := fun w =>
  (files w !! path, w).

Definition take_str (n : nat) (s : string) : string := String.substring 0 n s.

(** [with path.open("wb") as f: f.write(data)]; the result tells whether
    the block completed without an exception.  Opening creates or empties
    the file. *)
Definition open_wb_write (path data : string) : M bool :=
  f <- next_fault ;;
  log (EvWriteBinary path data f) ;;;
  match f with
  | NoFault => set_file path data ;;; ret true
  | FailOpen => ret false
  | FailWrite n => set_file path (take_str n data) ;;; ret false
  end.

(** [with path.open("a") as f: f.write(text)]; opening creates the file
    when it is absent. *)
Definition open_a_write (path text : string) : M bool :=
  f <- next_fault ;;
  log (EvAppend path text f) ;;;
  old <- read_file path ;;
  match f with
  | NoFault => set_file path (default "" old ++ text) ;;; ret true
  | FailOpen => ret false
  | FailWrite n => set_file path (default "" old ++ take_str n text) ;;; ret false
  end.

(** [with path.open("w") as f: f.truncate(0)]; opening in mode "w"
    already empties the file. *)
Definition open_w_truncate (path : string) : M bool :=
  f <- next_fault ;;
  log (EvTruncate path f) ;;;
  match f with
  | NoFault => set_file path "" ;;; ret true
  | FailOpen => ret false
  | FailWrite _ => set_file path "" ;;; ret false
  end.

(** [path.mkdir(exist_ok=True)]; directories are not files of the model. *)
Definition mkdir_exist_ok (path : string) : M bool :=
  f <- next_fault ;;
  log (EvMkdir path f) ;;;
  match f with
  | NoFault => ret true
  | _ => ret false
  end.
End Sys.

(* ===================================================================== *)
(** * Paths ([pathlib.Path]) *)
(* ===================================================================== *)

Module Paths.

Definition slash : ascii := "/"%char.

Definition is_absolute (p : string) : bool := String.prefix "/" p.

(** The string form of a resolved absolute directory: it starts with a
    slash and, unless it is the root, does not end with one. *)
Definition resolved_dir (p : string) : bool :=
  is_absolute p && (String.eqb p "/" || negb (ends_with slash p)).

(** A directory followed by the separator a component is joined with. *)
Definition with_slash (dir : string) : string :=
  if ends_with slash dir then dir else dir ++ "/".

(** [str(dir / name)] for a directory in string form: an absolute [name]
    replaces [dir], any other is joined to it. *)
Definition path_join (dir name : string) : string :=
  if is_absolute name then name else with_slash dir ++ name.

(** [dir] is a leading run of whole components of [p] (the lexical test
    of [PurePath.is_relative_to]). *)
Definition has_dir_prefix (dir p : string) : bool :=
  String.eqb p dir || String.prefix (with_slash dir) p.

End Paths.
Import Paths.

(* ===================================================================== *)
(** * data_gen.py *)
(* ===================================================================== *)

(** The two values the start-up code derives from [config.ini], in string
    form; [SRC_DIR_PATH] is the result of [Path(...).resolve()]. *)
Record Config := mkConfig {
  SRC_DIR_PATH : string;
  CSV_FILE_PATH : string
}.

(** Lines 87-88: the fixed payload and its digest. *)
Definition FILE_CONTENT : string := "test file content for pcap".
Definition FILE_HASH : string := SHA256.hexdigest FILE_CONTENT.

(** [f"MAH11-{time.strftime('%Y%m%d-%H%M%S', current_time)}.pcap"] *)
Definition fixture_filename (current_time : struct_time) : string :=
  "MAH11-" ++ strftime_stamp current_time ++ ".pcap".

(** [f"{epoch_time},{path},{FILE_HASH}\n"] *)
Definition record_line (epoch_time : Z) (path : string) : string :=
  dec epoch_time ++ "," ++ path ++ "," ++ FILE_HASH ++ NL.

(** Lines 122-142.  Any exception of the [with] block is caught and gives
    [(None, None)]. *)
Definition generate_valid_record (cfg : Config) : M (option string * option string) :=
  epoch_time <- Sys.int_time_time ;;
  current_time <- Sys.time_localtime ;;
  let filename := fixture_filename current_time in
  let file_path := path_join (SRC_DIR_PATH cfg) filename in
  ok <- Sys.open_wb_write file_path FILE_CONTENT ;;
  if ok then
    let csv_line := record_line epoch_time file_path in
    ret (Some csv_line, Some file_path)
  else ret (None, None).

(** Lines 147-178.  The last branch is the fallback for an unknown
    [error_type]; its f-string is the one of the valid record. *)
Definition generate_error_record (cfg : Config) (error_type : string) : M string :=
  epoch_time <- Sys.int_time_time ;;
  current_time <- Sys.time_localtime ;;
  let filename := fixture_filename current_time in
  let valid_path := path_join (SRC_DIR_PATH cfg) filename in
  if String.eqb error_type "missing_field" then
    ret (dec epoch_time ++ NL)
  else if String.eqb error_type "empty_path" then
    ret (dec epoch_time ++ ",," ++ FILE_HASH ++ NL)
  else if String.eqb error_type "extra_row" then
    ret (dec epoch_time ++ "," ++ valid_path ++ "," ++ FILE_HASH ++ NL
         ++ "EXTRA,ROW,DATA" ++ NL)
  else if String.eqb error_type "garbled" then
    ret ("garbled data, not, even close" ++ NL ++ "to csv format!" ++ NL)
  else
    ret (record_line epoch_time valid_path).

(** Lines 183-214.  [except OSError] and the last branch fall back to the
    bare file name. *)
Definition generate_fail_record (fail_type : string) : M string :=
  epoch_time <- Sys.int_time_time ;;
  current_time <- Sys.time_localtime ;;
  let filename := fixture_filename current_time in
  file_path_str <-
    (if String.eqb fail_type "relative" then ret filename
     else if String.eqb fail_type "outside" then
       let temp_dir := "/tmp" in
       ok <- Sys.mkdir_exist_ok temp_dir ;;
       if ok then ret (path_join temp_dir filename)
       else ret filename
     else ret filename) ;;
  ret (record_line epoch_time file_path_str).

(** What one pass of the [while True] body does to the loop. *)
Inductive control := Next | Break.

(** Lines 283-289: [if csv_line_to_append:] then append it to the ledger;
    an I/O error is reported and swallowed. *)
Definition append_if_any (cfg : Config) (csv_line_to_append : option string) : M unit :=
  match csv_line_to_append with
  | Some (String c s) =>
      Sys.open_a_write (CSV_FILE_PATH cfg) (String c s) ;;; ret tt
  | _ => ret tt
  end.

(** Lines 239-289: one pass of the loop body of [main] for the key [key]
    read by [getch].  The truncate branch ends with [continue], the quit
    branch with [break]; every other branch reaches the guarded append. *)
Definition loop_body (cfg : Config) (key : string) : M control :=
  let ch := lower key in
  if String.eqb ch " " then
    r <- generate_valid_record cfg ;;
    let csv_line := fst r in
    append_if_any cfg (match csv_line with
                       | Some (String c s) => csv_line
                       | _ => None
                       end) ;;;
    ret Next
  else if String.eqb ch "1" then
    l <- generate_error_record cfg "missing_field" ;; append_if_any cfg (Some l) ;;; ret Next
  else if String.eqb ch "2" then
    l <- generate_error_record cfg "empty_path" ;; append_if_any cfg (Some l) ;;; ret Next
  else if String.eqb ch "3" then
    l <- generate_error_record cfg "extra_row" ;; append_if_any cfg (Some l) ;;; ret Next
  else if String.eqb ch "4" then
    l <- generate_error_record cfg "garbled" ;; append_if_any cfg (Some l) ;;; ret Next
  else if String.eqb ch "r" then
    l <- generate_fail_record "relative" ;; append_if_any cfg (Some l) ;;; ret Next
  else if String.eqb ch "o" then
    l <- generate_fail_record "outside" ;; append_if_any cfg (Some l) ;;; ret Next
  else if String.eqb ch "t" then
    Sys.open_w_truncate (CSV_FILE_PATH cfg) ;;; ret Next
  else if String.eqb ch "q" then
    ret Break
  else
    append_if_any cfg None ;;; ret Next.

(** [main]: the loop over the keys typed, until the quit key.  When the
    keys run out the program is left waiting in [getch]. *)
Fixpoint main (cfg : Config) (keys : list string) (w : World) : World :=
  match keys with
  | [] => w
  | key :: rest =>
      match loop_body cfg key w with
      | (Break, w') => w'
      | (Next, w') => main cfg rest w'
      end
  end.

(** The ledger as the file system holds it (empty when absent). *)
Definition ledger (cfg : Config) (w : World) : string :=
  default "" (files w !! CSV_FILE_PATH cfg).

(** The file-system calls made between two worlds. *)
Definition new_events (w w' : World) : list event :=
  skipn (length (trace w)) (trace w').

Definition is_append (e : event) : bool :=
  match e with EvAppend _ _ _ => true | _ => false end.

Definition appends (es : list event) : list event := List.filter is_append es.

(** The ledger file is not itself one of the fixture files: no fixture
    name under the source directory is the path of the ledger. *)
Definition ledger_apart (cfg : Config) : Prop :=
  forall tm, CSV_FILE_PATH cfg <> path_join (SRC_DIR_PATH cfg) (fixture_filename tm).

(** Every file-system call from the one numbered [io_calls w] on succeeds. *)
Definition io_succeeds (w : World) : Prop :=
  forall n, io_fault w (io_calls w + n) = NoFault.

(** The epoch and the local time a formatter started in [w] works with:
    the first and the second clock sample from [w] on. *)
Definition epoch_read (w : World) : Z :=
  Z.quot (clock w (clock_reads w)) 1000000000.

Definition stamp_read (w : World) : struct_time :=
  localtime_of (utc_offset w) (clock w (S (clock_reads w)) / 1000000000).

(** The world once the two clock samples of a formatter are taken. *)
Definition after_clock (w : World) : World :=
  mkWorld (clock w) (S (S (clock_reads w))) (utc_offset w)
          (io_fault w) (io_calls w) (files w) (trace w).

(** The world once one more file-system call [e] is made and has left the
    files [fs]. *)
Definition after_io (e : event) (fs : gmap string string) (w : World) : World :=
  mkWorld (clock w) (clock_reads w) (utc_offset w)
          (io_fault w) (S (io_calls w)) fs (trace w ++ [e]).

(** The files after [data] is written at [path] from position [old] on,
    with outcome [f]. *)
Definition written (path old data : string) (f : fault)
    (fs : gmap string string) : gmap string string :=
  match f with
  | NoFault => <[path := old ++ data]> fs
  | FailOpen => fs
  | FailWrite n => <[path := old ++ Sys.take_str n data]> fs
  end.

(** The fixture path a formatter started in [w] builds. *)
Definition fixture_path (cfg : Config) (w : World) : string :=
  path_join (SRC_DIR_PATH cfg) (fixture_filename (stamp_read w)).

(** The world after the ledger append of [text]. *)
Definition after_append (cfg : Config) (text : string) (w : World) : World :=
  let f := io_fault w (io_calls w) in
  after_io (EvAppend (CSV_FILE_PATH cfg) text f)
           (written (CSV_FILE_PATH cfg) (ledger cfg w) text f (files w)) w.

(** The world after [if csv_line_to_append:] and the append it guards. *)
Definition append_result (cfg : Config) (o : option string) (w : World) : World :=
  match o with
  | Some (String c s) => after_append cfg (String c s) w
  | _ => w
  end.

(** The world after the truncation of the ledger. *)
Definition after_truncate (cfg : Config) (w : World) : World :=
  let f := io_fault w (io_calls w) in
  after_io (EvTruncate (CSV_FILE_PATH cfg) f)
           (match f with
            | FailOpen => files w
            | _ => <[CSV_FILE_PATH cfg := ""]> (files w)
            end) w.

(** The world after the [mkdir] of the "outside" record. *)
Definition after_mkdir (w : World) : World :=
  after_io (EvMkdir "/tmp" (io_fault w (io_calls w))) (files w) (after_clock w).

(** The world after the fixture write of a formatter started in [w]. *)
Definition after_fixture (cfg : Config) (w : World) : World :=
  let f := io_fault w (io_calls w) in
  after_io (EvWriteBinary (fixture_path cfg w) FILE_CONTENT f)
           (written (fixture_path cfg w) "" FILE_CONTENT f (files w)) (after_clock w).

(* ===================================================================== *)
(** * Vocabulary of the specification *)
(* ===================================================================== *)

(** The selectors the loop acts on, after lowering. *)
Definition recognized (ch : string) : bool :=
  existsb (String.eqb ch) [" "; "1"; "2"; "3"; "4"; "r"; "o"; "t"; "q"].

(** The selectors that stand for a record formatter, and the text that
    formatter produces ([None] when it produces none). *)
Definition formatter (cfg : Config) (ch : string) : option (M (option string)) :=
  if String.eqb ch " " then Some (r <- generate_valid_record cfg ;; ret (fst r))
  else if String.eqb ch "1" then Some (l <- generate_error_record cfg "missing_field" ;; ret (Some l))
  else if String.eqb ch "2" then Some (l <- generate_error_record cfg "empty_path" ;; ret (Some l))
  else if String.eqb ch "3" then Some (l <- generate_error_record cfg "extra_row" ;; ret (Some l))
  else if String.eqb ch "4" then Some (l <- generate_error_record cfg "garbled" ;; ret (Some l))
  else if String.eqb ch "r" then Some (l <- generate_fail_record "relative" ;; ret (Some l))
  else if String.eqb ch "o" then Some (l <- generate_fail_record "outside" ;; ret (Some l))
  else None.

Definition supported_error_type (t : string) : bool :=
  existsb (String.eqb t) ["missing_field"; "empty_path"; "extra_row"; "garbled"].

Definition supported_fail_type (t : string) : bool :=
  existsb (String.eqb t) ["relative"; "outside"].

(** The characters [str(n)] is made of. *)
Definition is_int_char (c : ascii) : bool := is_digit c || Ascii.eqb c "-".

(** [p] holds of the [fuel] integers from [k] on. *)
Fixpoint all_from (fuel : nat) (k : Z) (p : Z -> bool) : bool :=
  match fuel with
  | O => true
  | S fuel' => p k && all_from fuel' (k + 1)%Z p
  end.

(** A string of exactly [n] characters, all decimal digits. *)
Definition digits (n : nat) (s : string) : bool :=
  (String.length s =? n)%nat && all_chars is_digit s.

(** The calendar fields in the ranges of a date of the years 0 to 9999. *)
Definition four_digit_date (tm : struct_time) : bool :=
  ((0 <=? tm_year tm) && (tm_year tm <=? 9999)
   && (1 <=? tm_mon tm) && (tm_mon tm <=? 12)
   && (1 <=? tm_mday tm) && (tm_mday tm <=? 31)
   && (0 <=? tm_hour tm) && (tm_hour tm <=? 23)
   && (0 <=? tm_min tm) && (tm_min tm <=? 59)
   && (0 <=? tm_sec tm) && (tm_sec tm <=? 59))%Z.

(** The date of the [doe]-th day of the 400-year era that starts on
    0000-03-01: month and day in range, year of the era at most 400, and at
    most 399 up to the day 146036 (the 31st of December). *)
Definition era_date_ok (doe : Z) : bool :=
  let '(y, m, d) := civil_from_days (doe - 719468) in
  ((1 <=? m) && (m <=? 12) && (1 <=? d) && (d <=? 31)
   && (0 <=? y) && (y <=? 400) && ((146036 <? doe) || (y <=? 399)))%Z.

(** A text that leaves no line open: it is empty or ends with a newline. *)
Definition newline_terminated (s : string) : Prop :=
  s = "" \/ ends_with nl s = true.

(** The text of an append, when the event is one, ends with a newline. *)
Definition append_ends_line (e : event) : Prop :=
  match e with
  | EvAppend _ text _ => ends_with nl text = true
  | _ => True
  end.

(** A decimal integer, with an optional minus sign. *)
Definition is_integer (s : string) : bool :=
  match s with
  | EmptyString => false
  | String "-" (String c r) => all_chars is_digit (String c r)
  | String c r => all_chars is_digit (String c r)
  end.

(** A SHA-256 digest in text form: 64 lowercase hexadecimal digits. *)
Definition is_digest (s : string) : bool :=
  (String.length s =? 64)%nat && all_chars is_lower_hex s.

(** The grammar of a valid ledger line, [<integer epoch>,<path>,<64-hex>],
    on a physical line (without its newline). *)
Definition valid_ledger_line (l : string) : bool :=
  match csv_fields l with
  | [e; _; d] => is_integer e && is_digest d
  | _ => false
  end.

(** A line has the comma-delimited structure of the schema when its commas
    cut it into three fields. *)
Definition schema_shaped (l : string) : bool :=
  (length (csv_fields l) =? 3)%nat.

(** The file-name pattern [MAH11-\d{8}-\d{6}\.pcap]. *)
Definition matches_fixture_pattern (s : string) : bool :=
  match s with
  | String "M" (String "A" (String "H" (String "1" (String "1" (String "-" r))))) =>
      (String.length r =? 20)%nat
      && all_chars is_digit (String.substring 0 8 r)
      && String.eqb (String.substring 8 1 r) "-"
      && all_chars is_digit (String.substring 9 6 r)
      && String.eqb (String.substring 15 5 r) ".pcap"
  | _ => false
  end.

(* ===================================================================== *)
(** * data_rx.py *)
(* ===================================================================== *)

Module DataRx.
Local Open Scope Z_scope.

(** What [upload] reads of a request: the two headers it looks up and the
    raw body. *)
Record request := mkRequest {
  x_filename : option string;
  content_type : option string;
  data : string
}.

(** The process: the global counter and the lines logged so far. *)
Record server := mkServer {
  upload_counter : Z;
  logged : list string
}.

(** What the client observes: the body and status returned, and for how
    many seconds [time.sleep] held the response back. *)
Record reply := mkReply {
  body : string;
  status : Z;
  held : Z
}.

(** Lines 19-40. *)
Definition upload (req : request) (s : server) : reply * server :=
  let upload_counter := upload_counter s + 1 in
  let file_name := default "unknown" (x_filename req) in
  let data_length := Z.of_nat (String.length (data req)) in
  let l1 := "Received Content-Type: " ++ default "None" (content_type req) in
  let l2 := "Received file '" ++ file_name ++ "' (" ++ dec data_length ++ " bytes)" in
  if upload_counter mod 20 =? 0 then
    let l3 := "Delaying response for file '" ++ file_name ++ "' to simulate timeout..." in
    (mkReply "OK" 200 6, mkServer upload_counter (logged s ++ [l1; l2; l3]))
  else
    (mkReply "OK" 200 0, mkServer upload_counter (logged s ++ [l1; l2])).

(** The process at start: [upload_counter = 0]. *)
Definition start : server := mkServer 0 [].

(** The replies to a sequence of requests served one after the other. *)
Fixpoint serve (reqs : list request) (s : server) : list reply :=
  match reqs with
  | [] => []
  | r :: rest => let '(rep, s') := upload r s in rep :: serve rest s'
  end.

End DataRx.

(* ===================================================================== *)
(** * Sample configurations and worlds *)
(* ===================================================================== *)

Module Samples.
Local Open Scope Z_scope.

Definition cfg : Config := mkConfig "/data/src" "/data/csv/ledger.csv".

(** A source directory whose name holds a comma. *)
Definition cfg_comma : Config := mkConfig "/srv/a,b" "/srv/ledger.csv".

(** UTC, an empty file system, no I/O failure, the clock at
    1700000000 s and advancing by one microsecond per sample. *)
Definition world : World :=
  mkWorld (fun n => 1700000000 * 1000000000 + 1000 * Z.of_nat n) 0 utc
          (fun _ => NoFault) 0 ∅ [].

(** The same, where every file-system call raises. *)
Definition world_failing : World :=
  mkWorld (fun n => 1700000000 * 1000000000 + 1000 * Z.of_nat n) 0 utc
          (fun _ => FailOpen) 0 ∅ [].

(** The same as [world], where the second passes between the first clock
    sample (1699999999.999999 s) and the following ones (1700000000.000001 s). *)
Definition world_tick : World :=
  mkWorld (fun n => match n with
                    | O => 1699999999999999000
                    | _ => 1700000000000001000
                    end) 0 utc
          (fun _ => NoFault) 0 ∅ [].

End Samples.

(* ===================================================================== *)
(** * Vocabulary of the further properties *)
(* ===================================================================== *)

(** Every file-system call the process ever makes succeeds. *)
Definition all_io_ok (w : World) : Prop := forall n, io_fault w n = NoFault.

(** The keys that stand for the quit and for the truncate selector. *)
Definition is_quit (key : string) : bool := String.eqb (lower key) "q".
Definition is_truncate (key : string) : bool := String.eqb (lower key) "t".

(** The keys the loop acts on. *)
Definition is_selector (key : string) : bool := recognized (lower key).

(** The process of [data_rx.py] after a sequence of requests. *)
Fixpoint served (reqs : list DataRx.request) (s : DataRx.server) : DataRx.server :=
  match reqs with
  | [] => s
  | r :: rest => served rest (snd (DataRx.upload r s))
  end.

(** The seconds for which replies were held, in all. *)
Definition total_held (rs : list DataRx.reply) : Z :=
  fold_right (fun r acc => (DataRx.held r + acc)%Z) 0%Z rs.

(* ===================================================================== *)
(** * Checks of the library models against known values *)
(* ===================================================================== *)

(** Closed goals, or conjunctions of them, settled by evaluation. *)
Ltac split_conj := repeat match goal with |- _ /\ _ => split end.
Ltac by_computation := split_conj; vm_compute; reflexivity.

Example sha256_constants :
  length SHA256.K = 64%nat
  /\ firstn 5 SHA256.primes64 = [2; 3; 5; 7; 11]%N /\ List.last SHA256.primes64 0%N = 311%N
  /\ nth 0 SHA256.K 0%N = 0x428a2f98%N /\ nth 63 SHA256.K 0%N = 0xc67178f2%N
  /\ nth 0 SHA256.H0 0%N = 0x6a09e667%N /\ nth 7 SHA256.H0 0%N = 0x5be0cd19%N.
Proof. by_computation. Qed.

Example hexdigest_empty :
  SHA256.hexdigest "" = "e3b0c44298fc1c149afbf4c8996fb92427ae41e4649b934ca495991b7852b855".
Proof. vm_compute. reflexivity. Qed.

Example hexdigest_abc :
  SHA256.hexdigest "abc" = "ba7816bf8f01cfea414140de5dae2223b00361a396177a9cb410ff61f20015ad".
Proof. vm_compute. reflexivity. Qed.

(** A message of two blocks (the second example of FIPS 180-4). *)
Example hexdigest_two_blocks :
  SHA256.hexdigest "abcdbcdecdefdefgefghfghighijhijkijkljklmklmnlmnomnopnopq"
  = "248d6a61d20638b8e5c026930c3e6039a33ce45964ff2167f6ecedd419db06c1".
Proof. vm_compute. reflexivity. Qed.

(** The instant of the specification's example. *)
Example stamp_1700000000 :
  strftime_stamp (localtime_of utc 1700000000) = "20231114-221320".
Proof. vm_compute. reflexivity. Qed.

Example stamp_leap_day :
  strftime_stamp (localtime_of utc 951782400) = "20000229-000000".
Proof. vm_compute. reflexivity. Qed.

Example stamp_before_epoch :
  strftime_stamp (localtime_of utc (-1)) = "19691231-235959".
Proof. vm_compute. reflexivity. Qed.

Example lines_of_text :
  lines ("a" ++ NL ++ NL ++ "b") = ["a"; ""; "b"] /\ lines ("a" ++ NL) = ["a"] /\ lines "" = [].
Proof. repeat split; reflexivity. Qed.

Example split_on_text :
  split_on "," "a,,b" = ["a"; ""; "b"] /\ split_on "," "" = [""] /\ split_on "," "a," = ["a"; ""].
Proof. repeat split; reflexivity. Qed.

Lemma FILE_HASH_value :
  FILE_HASH = "550ad5715ce5981e229efb02cb26f730b5e5d6595c0724403de2d6a965d60c44".
Proof. vm_compute. reflexivity. Qed.

Lemma FILE_HASH_def : FILE_HASH = SHA256.hexdigest FILE_CONTENT.
Proof. reflexivity. Qed.

Global Opaque FILE_HASH.

(* ===================================================================== *)
(** * Lemmas on texts *)
(* ===================================================================== *)

Section TextLemmas.

Lemma contains_app c a b : contains c (a ++ b) = contains c a || contains c b.
Proof.
  induction a as [|x a IH]; simpl; [reflexivity|].
  rewrite IH. apply orb_assoc.
Qed.

Lemma all_chars_app p a b : all_chars p (a ++ b) = all_chars p a && all_chars p b.
Proof.
  induction a as [|x a IH]; simpl; [reflexivity|].
  rewrite IH. apply andb_assoc.
Qed.

Lemma all_chars_excludes p c s :
  p c = false -> all_chars p s = true -> contains c s = false.
Proof.
  intros Hc. induction s as [|x s IH]; simpl; [reflexivity|].
  intros H. apply andb_true_iff in H as [Hx Hs].
  destruct (Ascii.eqb_spec x c) as [->|_]; [congruence|].
  simpl. auto.
Qed.

Lemma ends_with_app c a x b :
  ends_with c (a ++ String x b) = ends_with c (String x b).
Proof.
  induction a as [|y a IH]; [reflexivity|].
  rewrite <- IH. cbn [append]. destruct a; reflexivity.
Qed.

Lemma ends_with_NL s : ends_with nl (s ++ NL) = true.
Proof. unfold NL. rewrite ends_with_app. reflexivity. Qed.

Lemma app_assoc_s (a b c : string) : (a ++ b) ++ c = a ++ (b ++ c).
Proof. induction a as [|x a IH]; simpl; [reflexivity|]. now rewrite IH. Qed.

Lemma app_empty_r (a : string) : a ++ "" = a.
Proof. induction a as [|x a IH]; simpl; [reflexivity|]. now rewrite IH. Qed.

Lemma prefix_app a b : String.prefix a (a ++ b) = true.
Proof.
  induction a as [|x a IH]; simpl; [destruct b; reflexivity|].
  destruct (ascii_dec x x); [exact IH | congruence].
Qed.

Lemma prefix_split a s : String.prefix a s = true -> exists r, s = a ++ r.
Proof.
  revert s. induction a as [|x a IH]; intros s H.
  - exists s. reflexivity.
  - destruct s as [|y s]; simpl in H; [discriminate|].
    destruct (ascii_dec x y) as [->|]; [|discriminate].
    destruct (IH _ H) as [r ->]. exists r. reflexivity.
Qed.

Lemma split_on_no_sep sep s : contains sep s = false -> split_on sep s = [s].
Proof.
  induction s as [|x s IH]; simpl; [reflexivity|].
  intros H. apply orb_false_iff in H as [Hx Hs].
  rewrite Hx, (IH Hs). reflexivity.
Qed.

Lemma split_on_app_sep sep a b :
  contains sep a = false -> split_on sep (a ++ String sep b) = a :: split_on sep b.
Proof.
  induction a as [|x a IH]; simpl.
  - intros _. rewrite Ascii.eqb_refl. reflexivity.
  - intros H. apply orb_false_iff in H as [Hx Hs].
    rewrite Hx, (IH Hs). reflexivity.
Qed.

(** Three comma-free fields joined by commas are cut back into themselves. *)
Lemma csv_fields_three a b c :
  contains "," a = false -> contains "," b = false -> contains "," c = false ->
  csv_fields (a ++ "," ++ b ++ "," ++ c) = [a; b; c].
Proof.
  intros Ha Hb Hc. unfold csv_fields. cbn [append].
  rewrite (split_on_app_sep _ a), (split_on_app_sep _ b), (split_on_no_sep _ c); auto.
Qed.

Lemma lines_nil s : lines s = [] -> s = "".
Proof.
  destruct s as [|x s]; [reflexivity|]. simpl.
  destruct (Ascii.eqb x nl); [discriminate|].
  destruct (lines s); discriminate.
Qed.

(** A text without a newline, followed by one, is one line. *)
Lemma lines_terminated s : contains nl s = false -> lines (s ++ NL) = [s].
Proof.
  induction s as [|x s IH]; simpl; [reflexivity|].
  intros H. apply orb_false_iff in H as [Hx Hs].
  rewrite Hx, (IH Hs). reflexivity.
Qed.

(** After a text that is empty or ends with a newline, the lines of what
    follows are added whole: no line is shared. *)
Lemma lines_app a b :
  a = "" \/ ends_with nl a = true -> lines (a ++ b) = (lines a ++ lines b)%list.
Proof.
  induction a as [|x a IH]; intros H; [reflexivity|].
  destruct H as [H|H]; [discriminate|].
  destruct a as [|y a].
  - simpl in H. simpl. rewrite H. reflexivity.
  - assert (Ha : lines (String y a ++ b) = (lines (String y a) ++ lines b)%list)
      by (apply IH; right; exact H).
    change (String x (String y a) ++ b) with (String x (String y a ++ b)).
    cbn [lines] in *. destruct (Ascii.eqb x nl).
    + rewrite Ha. reflexivity.
    + rewrite Ha. clear.
      destruct (Ascii.eqb y nl); [reflexivity|].
      destruct (lines a); reflexivity.
Qed.

(** Adding text at the end never removes a line. *)
Lemma line_count_app a b : (line_count a <= line_count (a ++ b))%nat.
Proof.
  unfold line_count. induction a as [|x a IH]; simpl; [lia|].
  destruct (Ascii.eqb x nl); simpl; [lia|].
  destruct (lines a), (lines (a ++ b)); simpl in *; lia.
Qed.

Lemma all_chars_weaken (p q : ascii -> bool) s :
  (forall c, p c = true -> q c = true) -> all_chars p s = true -> all_chars q s = true.
Proof.
  intros Hpq. induction s as [|x s IH]; simpl; [reflexivity|].
  intros H. apply andb_true_iff in H as [Hx Hs].
  rewrite (Hpq _ Hx), (IH Hs). reflexivity.
Qed.

Lemma uint_chars d : all_chars is_digit (NilEmpty.string_of_uint d) = true.
Proof. induction d; simpl; auto. Qed.

Lemma dec_chars z : all_chars is_int_char (dec z) = true.
Proof.
  assert (U : forall d, all_chars is_int_char (NilZero.string_of_uint d) = true).
  { intros d. apply all_chars_weaken with (p := is_digit).
    - intros c Hc. unfold is_int_char. rewrite Hc. reflexivity.
    - destruct d; try apply (uint_chars (_ d)); reflexivity. }
  unfold dec, NilZero.string_of_int. destruct (Z.to_int z) as [d|d].
  - apply U.
  - change (is_int_char "-" && all_chars is_int_char (NilZero.string_of_uint d) = true).
    rewrite U. reflexivity.
Qed.

Lemma zfill_chars p w s :
  p "0"%char = true -> all_chars p s = true -> all_chars p (zfill w s) = true.
Proof.
  intros H0 Hs. unfold zfill. rewrite all_chars_app, Hs, andb_true_r.
  induction (w - String.length s)%nat as [|n IH]; simpl; [reflexivity|].
  rewrite H0, IH. reflexivity.
Qed.

Lemma stamp_chars tm : all_chars is_int_char (strftime_stamp tm) = true.
Proof.
  unfold strftime_stamp.
  repeat (rewrite all_chars_app; apply andb_true_iff; split);
    try (apply zfill_chars; [reflexivity | apply dec_chars]); reflexivity.
Qed.

(** A file name holds only the characters of its two literals, digits and
    the minus sign. *)
Lemma filename_excludes c tm :
  is_int_char c = false -> contains c "MAH11-.pcap" = false ->
  contains c (fixture_filename tm) = false.
Proof.
  intros Hc Hl. unfold fixture_filename.
  rewrite !contains_app, (all_chars_excludes is_int_char c _ Hc (stamp_chars tm)).
  change "MAH11-.pcap" with ("MAH11-" ++ ".pcap") in Hl.
  rewrite contains_app in Hl. apply orb_false_iff in Hl as [-> ->]. reflexivity.
Qed.

Lemma filename_relative tm : is_absolute (fixture_filename tm) = false.
Proof. reflexivity. Qed.

Lemma dec_excludes c z : is_int_char c = false -> contains c (dec z) = false.
Proof. intros Hc. apply (all_chars_excludes is_int_char c _ Hc (dec_chars z)). Qed.

Lemma FILE_HASH_no_comma : contains "," FILE_HASH = false.
Proof. rewrite FILE_HASH_value. reflexivity. Qed.

Lemma FILE_HASH_no_nl : contains nl FILE_HASH = false.
Proof. rewrite FILE_HASH_value. reflexivity. Qed.

Lemma FILE_HASH_is_digest : is_digest FILE_HASH = true.
Proof. rewrite FILE_HASH_value. reflexivity. Qed.

Lemma path_join_filename dir tm :
  path_join dir (fixture_filename tm) = with_slash dir ++ fixture_filename tm.
Proof. reflexivity. Qed.

Lemma with_slash_excludes c dir :
  c <> slash -> contains c dir = false -> contains c (with_slash dir) = false.
Proof.
  intros Hc Hd. unfold with_slash. destruct (ends_with slash dir); [exact Hd|].
  rewrite contains_app, Hd.
  change (contains c "/") with (Ascii.eqb slash c || false).
  destruct (Ascii.eqb_spec slash c) as [E|_]; [|reflexivity].
  exfalso. apply Hc. symmetry. exact E.
Qed.

(** The line [<epoch>,<path>,<digest>\n] of a comma-free and newline-free
    path is one physical line of three fields. *)
Lemma record_line_fields epoch path :
  contains "," path = false -> contains nl path = false ->
  exists l, lines (record_line epoch path) = [l]
            /\ csv_fields l = [dec epoch; path; FILE_HASH].
Proof.
  intros Hc Hn. exists (dec epoch ++ "," ++ path ++ "," ++ FILE_HASH). split.
  - unfold record_line.
    replace (dec epoch ++ "," ++ path ++ "," ++ FILE_HASH ++ NL)
      with ((dec epoch ++ "," ++ path ++ "," ++ FILE_HASH) ++ NL)
      by (rewrite !app_assoc_s; reflexivity).
    apply lines_terminated.
    rewrite !contains_app, Hn, FILE_HASH_no_nl, (dec_excludes nl) by reflexivity.
    reflexivity.
  - apply csv_fields_three;
      [apply dec_excludes; reflexivity | exact Hc | apply FILE_HASH_no_comma].
Qed.

End TextLemmas.

(* ===================================================================== *)
(** * What each piece of the program does to the world *)
(* ===================================================================== *)

Section Runs.
Variable cfg : Config.

Lemma generate_valid_record_run w :
  generate_valid_record cfg w =
  (match io_fault w (io_calls w) with
   | NoFault => (Some (record_line (epoch_read w) (fixture_path cfg w)),
                 Some (fixture_path cfg w))
   | _ => (None, None)
   end, after_fixture cfg w).
Proof.
  unfold generate_valid_record, after_fixture, after_io, after_clock, written, bind, ret,
    Sys.open_wb_write, Sys.int_time_time, Sys.time_localtime, Sys.sample, Sys.next_fault,
    Sys.log, Sys.set_file, bind, ret.
  cbn [clock clock_reads utc_offset io_fault io_calls files trace].
  destruct (io_fault w (io_calls w)); reflexivity.
Qed.

Lemma append_if_any_run text w :
  text <> "" -> append_if_any cfg (Some text) w = (tt, after_append cfg text w).
Proof.
  intros Hne. destruct text as [|c s]; [congruence|].
  unfold append_if_any, after_append, after_io, written, ledger, bind, ret,
    Sys.open_a_write, Sys.next_fault, Sys.log, Sys.read_file, Sys.set_file, bind, ret.
  cbn [clock clock_reads utc_offset io_fault io_calls files trace].
  destruct (io_fault w (io_calls w)); reflexivity.
Qed.

Lemma new_events_app w w' es :
  trace w' = (trace w ++ es)%list -> new_events w w' = es.
Proof. intros H. unfold new_events. rewrite H. apply drop_app_length. Qed.

Lemma append_if_any_eq o w : append_if_any cfg o w = (tt, append_result cfg o w).
Proof.
  destruct o as [[|c s]|]; try reflexivity.
  apply append_if_any_run. discriminate.
Qed.

Lemma run_bind_ret {A B} (g : M A) (h : A -> B) w :
  (x <- g ;; ret (h x)) w = (h (fst (g w)), snd (g w)).
Proof. unfold bind, ret. destruct (g w). reflexivity. Qed.

Lemma run_bind_append {A} (g : M A) (h : A -> option string) w :
  (x <- g ;; append_if_any cfg (h x) ;;; ret Next) w
  = (Next, append_result cfg (h (fst (g w))) (snd (g w))).
Proof.
  unfold bind. destruct (g w) as [a w1]. rewrite append_if_any_eq. reflexivity.
Qed.

Lemma generate_error_record_world ty w :
  snd (generate_error_record cfg ty w) = after_clock w.
Proof.
  unfold generate_error_record, bind, ret, Sys.int_time_time, Sys.time_localtime,
    Sys.sample, bind, ret.
  cbn [clock clock_reads utc_offset io_fault io_calls files trace].
  repeat match goal with |- context [if ?b then _ else _] => destruct b end; reflexivity.
Qed.


Lemma generate_fail_record_relative w :
  generate_fail_record "relative" w
  = (record_line (epoch_read w) (fixture_filename (stamp_read w)), after_clock w).
Proof. reflexivity. Qed.

Lemma generate_fail_record_outside w :
  generate_fail_record "outside" w
  = (record_line (epoch_read w)
       (match io_fault w (io_calls w) with
        | NoFault => path_join "/tmp" (fixture_filename (stamp_read w))
        | _ => fixture_filename (stamp_read w)
        end), after_mkdir w).
Proof.
  unfold generate_fail_record, after_mkdir, after_io, after_clock, bind, ret,
    Sys.mkdir_exist_ok, Sys.int_time_time, Sys.time_localtime, Sys.sample, Sys.next_fault,
    Sys.log, bind, ret.
  cbn [clock clock_reads utc_offset io_fault io_calls files trace String.eqb Ascii.eqb
       Bool.eqb].
  destruct (io_fault w (io_calls w)); reflexivity.
Qed.

(** The text for a fail type outside the two supported ones. *)
Lemma generate_fail_record_fallback ty w :
  supported_fail_type ty = false ->
  generate_fail_record ty w
  = (record_line (epoch_read w) (fixture_filename (stamp_read w)), after_clock w).
Proof.
  unfold supported_fail_type. cbn [existsb]. intros H.
  repeat (apply orb_false_iff in H as [? H]).
  unfold generate_fail_record, bind, ret, Sys.int_time_time, Sys.time_localtime,
    Sys.sample, bind, ret.
  cbn [clock clock_reads utc_offset io_fault io_calls files trace].
  repeat match goal with E : String.eqb _ _ = false |- _ => rewrite E; clear E end.
  reflexivity.
Qed.

(** A selector that stands for a formatter: the text of the formatter,
    when there is one, is appended, and nothing else happens. *)
Lemma loop_body_formatter key m w :
  formatter cfg (lower key) = Some m ->
  loop_body cfg key w = (Next, append_result cfg (fst (m w)) (snd (m w))).
Proof.
  unfold formatter, loop_body. generalize (lower key) as ch. intros ch.
  repeat match goal with
         | |- context [if String.eqb ch ?s then _ else _] => destruct (String.eqb ch s)
         end;
    intros [= <-]; unfold bind, ret.
  - destruct (generate_valid_record cfg w) as [[o p] w1].
    rewrite append_if_any_eq. destruct o as [[|c s]|]; reflexivity.
  - destruct (generate_error_record cfg _ w) as [l w1].
    rewrite append_if_any_eq. reflexivity.
  - destruct (generate_error_record cfg _ w) as [l w1].
    rewrite append_if_any_eq. reflexivity.
  - destruct (generate_error_record cfg _ w) as [l w1].
    rewrite append_if_any_eq. reflexivity.
  - destruct (generate_error_record cfg _ w) as [l w1].
    rewrite append_if_any_eq. reflexivity.
  - destruct (generate_fail_record _ w) as [l w1].
    rewrite append_if_any_eq. reflexivity.
  - destruct (generate_fail_record _ w) as [l w1].
    rewrite append_if_any_eq. reflexivity.
Qed.

Lemma loop_body_truncate key w :
  lower key = "t" -> loop_body cfg key w = (Next, after_truncate cfg w).
Proof.
  intros H. unfold loop_body. rewrite H.
  unfold after_truncate, after_io, bind, ret, Sys.open_w_truncate, Sys.next_fault,
    Sys.log, Sys.set_file, bind, ret.
  cbn [clock clock_reads utc_offset io_fault io_calls files trace String.eqb Ascii.eqb
       Bool.eqb].
  destruct (io_fault w (io_calls w)); reflexivity.
Qed.

Lemma loop_body_quit key w : lower key = "q" -> loop_body cfg key w = (Break, w).
Proof. intros H. unfold loop_body. rewrite H. reflexivity. Qed.

Lemma loop_body_other key w :
  recognized (lower key) = false -> loop_body cfg key w = (Next, w).
Proof.
  unfold recognized. cbn [existsb]. intros H.
  repeat (apply orb_false_iff in H as [? H]).
  unfold loop_body.
  repeat match goal with E : String.eqb _ _ = false |- _ => rewrite E; clear E end.
  reflexivity.
Qed.

(** The selectors: seven stand for a formatter, then truncate and quit. *)
Lemma recognized_cases ch :
  recognized ch = true ->
  ch = "t" \/ ch = "q" \/ exists m, formatter cfg ch = Some m.
Proof.
  unfold recognized, formatter. cbn [existsb].
  repeat match goal with
         | |- context [String.eqb ch ?s] => destruct (String.eqb_spec ch s)
         end; cbn [orb]; intros H; try discriminate H; eauto.
Qed.

Lemma formatter_not_truncate_quit ch m :
  formatter cfg ch = Some m -> ch <> "t" /\ ch <> "q".
Proof.
  unfold formatter. intros H. split; intros ->; discriminate H.
Qed.

Lemma ends_with_app_r c a b : ends_with c b = true -> ends_with c (a ++ b) = true.
Proof.
  destruct b as [|x b]; [discriminate|]. intros H. rewrite ends_with_app. exact H.
Qed.

Lemma ends_with_nonempty c s : ends_with c s = true -> exists x r, s = String x r.
Proof. destruct s as [|x r]; [discriminate|]. eauto. Qed.

Lemma record_line_newline epoch path : ends_with nl (record_line epoch path) = true.
Proof. unfold record_line. repeat apply ends_with_app_r. reflexivity. Qed.

Lemma error_record_newline ty w :
  ends_with nl (fst (generate_error_record cfg ty w)) = true.
Proof.
  unfold generate_error_record, bind, ret, Sys.int_time_time, Sys.time_localtime,
    Sys.sample, bind, ret.
  cbn [clock clock_reads utc_offset io_fault io_calls files trace].
  repeat match goal with |- context [if ?b then _ else _] => destruct b end;
    cbn [fst]; try apply record_line_newline; repeat apply ends_with_app_r; reflexivity.
Qed.

Lemma fail_record_text ty w :
  exists path, fst (generate_fail_record ty w) = record_line (epoch_read w) path.
Proof.
  destruct (String.eqb_spec ty "outside") as [->|Ho].
  - rewrite generate_fail_record_outside. eauto.
  - destruct (String.eqb_spec ty "relative") as [->|Hr].
    + rewrite generate_fail_record_relative. eauto.
    + rewrite generate_fail_record_fallback; [eauto|].
      unfold supported_fail_type. cbn [existsb].
      apply String.eqb_neq in Ho, Hr. rewrite Ho, Hr. reflexivity.
Qed.

Lemma fail_record_newline ty w :
  ends_with nl (fst (generate_fail_record ty w)) = true.
Proof. destruct (fail_record_text ty w) as [p ->]. apply record_line_newline. Qed.

Lemma fail_record_world ty w :
  snd (generate_fail_record ty w)
  = if String.eqb ty "outside" then after_mkdir w else after_clock w.
Proof.
  destruct (String.eqb_spec ty "outside") as [->|Ho].
  - rewrite generate_fail_record_outside. reflexivity.
  - destruct (String.eqb_spec ty "relative") as [->|Hr].
    + reflexivity.
    + rewrite generate_fail_record_fallback; [reflexivity|].
      unfold supported_fail_type. cbn [existsb].
      apply String.eqb_neq in Ho, Hr. rewrite Ho, Hr. reflexivity.
Qed.

(** What the formatter of a selector does besides producing its text: it
    makes at most one file-system call, never an append, and leaves the
    ledger alone. *)
Lemma formatter_effect ch m w :
  formatter cfg ch = Some m ->
  exists es k,
    trace (snd (m w)) = (trace w ++ es)%list
    /\ appends es = []
    /\ io_fault (snd (m w)) = io_fault w
    /\ io_calls (snd (m w)) = (io_calls w + k)%nat
    /\ (ledger_apart cfg -> ledger cfg (snd (m w)) = ledger cfg w)
    /\ (io_fault w (io_calls w) = NoFault -> exists c s, fst (m w) = Some (String c s)).
Proof.
  unfold formatter.
  repeat match goal with
         | |- context [if String.eqb ch ?s then _ else _] => destruct (String.eqb ch s)
         end;
    intros [= <-]; rewrite !run_bind_ret; cbn [fst snd];
    rewrite ?generate_error_record_world, ?fail_record_world,
      ?generate_valid_record_run; cbn [fst snd String.eqb Ascii.eqb Bool.eqb].
  - exists [EvWriteBinary (fixture_path cfg w) FILE_CONTENT (io_fault w (io_calls w))], 1%nat.
    repeat split; try reflexivity.
    + unfold after_fixture, after_io. cbn [io_calls after_clock]. lia.
    + intros Hap. unfold ledger, after_fixture, after_io, written. cbn [files after_clock].
      destruct (io_fault w (io_calls w)); [|reflexivity|];
        rewrite lookup_insert_ne; auto; intros E; exact (Hap _ (eq_sym E)).
    + intros ->. destruct (ends_with_nonempty _ _ (record_line_newline (epoch_read w)
        (fixture_path cfg w))) as (c & s & ->). eauto.
  - exists [], 0%nat. rewrite app_nil_r.
    repeat split; try reflexivity; [cbn; lia|].
    intros _. destruct (ends_with_nonempty _ _ (error_record_newline "missing_field" w))
      as (c & s & ->). eauto.
  - exists [], 0%nat. rewrite app_nil_r.
    repeat split; try reflexivity; [cbn; lia|].
    intros _. destruct (ends_with_nonempty _ _ (error_record_newline "empty_path" w))
      as (c & s & ->). eauto.
  - exists [], 0%nat. rewrite app_nil_r.
    repeat split; try reflexivity; [cbn; lia|].
    intros _. destruct (ends_with_nonempty _ _ (error_record_newline "extra_row" w))
      as (c & s & ->). eauto.
  - exists [], 0%nat. rewrite app_nil_r.
    repeat split; try reflexivity; [cbn; lia|].
    intros _. destruct (ends_with_nonempty _ _ (error_record_newline "garbled" w))
      as (c & s & ->). eauto.
  - exists [], 0%nat. rewrite app_nil_r.
    repeat split; try reflexivity; [cbn; lia|].
    intros _. destruct (ends_with_nonempty _ _ (fail_record_newline "relative" w))
      as (c & s & ->). eauto.
  - exists [EvMkdir "/tmp" (io_fault w (io_calls w))], 1%nat.
    repeat split; try reflexivity; [cbn; lia|].
    intros _. destruct (ends_with_nonempty _ _ (fail_record_newline "outside" w))
      as (c & s & ->). eauto.
Qed.

(** What the guarded append does to the ledger: it adds a piece at its
    end, the whole text when the call succeeds. *)
Lemma ledger_after_append text w :
  exists piece,
    ledger cfg (after_append cfg text w) = ledger cfg w ++ piece
    /\ (io_fault w (io_calls w) = NoFault -> piece = text).
Proof.
  unfold after_append, after_io, written.
  destruct (io_fault w (io_calls w)) as [| |n].
  - exists text. split; [|reflexivity].
    unfold ledger at 1. cbn [files]. rewrite lookup_insert_eq. reflexivity.
  - exists "". split; [|discriminate].
    unfold ledger at 1. cbn [files]. rewrite app_empty_r. reflexivity.
  - exists (Sys.take_str n text). split; [|discriminate].
    unfold ledger at 1. cbn [files]. rewrite lookup_insert_eq. reflexivity.
Qed.

Lemma ledger_append_result o w :
  exists piece, ledger cfg (append_result cfg o w) = ledger cfg w ++ piece.
Proof.
  destruct o as [[|c s]|]; cbn [append_result]; try (exists ""; now rewrite app_empty_r).
  destruct (ledger_after_append (String c s) w) as (piece & H & _). eauto.
Qed.

(** A selector whose formatter produced the text [text]: the pass of the
    loop makes exactly one append, of that text. *)
Lemma formatter_appends key m w text :
  formatter cfg (lower key) = Some m -> fst (m w) = Some text -> text <> "" ->
  appends (new_events w (snd (loop_body cfg key w)))
  = [EvAppend (CSV_FILE_PATH cfg) text (io_fault w (io_calls (snd (m w))))].
Proof.
  intros Hm Ht Hne. rewrite (loop_body_formatter _ _ _ Hm), Ht.
  destruct (formatter_effect _ _ w Hm) as (es & k & Htr & Hap & Hio & _).
  destruct text as [|c s]; [congruence|]. cbn [append_result snd].
  rewrite (new_events_app w _
             (es ++ [EvAppend (CSV_FILE_PATH cfg) (String c s)
                       (io_fault w (io_calls (snd (m w))))])).
  - unfold appends in *. rewrite List.filter_app, Hap. reflexivity.
  - unfold after_append, after_io. cbn [trace]. rewrite Htr, Hio, <- app_assoc. reflexivity.
Qed.

End Runs.

(* ===================================================================== *)
(** * The valid record (C1, C2, C3) *)
(* ===================================================================== *)

Lemma is_absolute_app a b : is_absolute a = true -> is_absolute (a ++ b) = true.
Proof.
  unfold is_absolute. intros H. apply prefix_split in H as [r ->].
  rewrite app_assoc_s. apply prefix_app.
Qed.

Lemma is_absolute_with_slash d : is_absolute d = true -> is_absolute (with_slash d) = true.
Proof.
  intros H. unfold with_slash. destruct (ends_with slash d); [exact H|].
  apply is_absolute_app, H.
Qed.

Lemma fixture_path_under cfg w :
  has_dir_prefix (SRC_DIR_PATH cfg) (fixture_path cfg w) = true.
Proof.
  unfold has_dir_prefix, fixture_path. rewrite path_join_filename, prefix_app.
  apply orb_true_r.
Qed.

Lemma fixture_path_excludes c cfg w :
  c <> slash -> is_int_char c = false -> contains c "MAH11-.pcap" = false ->
  contains c (SRC_DIR_PATH cfg) = false ->
  contains c (fixture_path cfg w) = false.
Proof.
  intros Hs Hi Hl Hd. unfold fixture_path.
  rewrite path_join_filename, contains_app, with_slash_excludes, filename_excludes; auto.
Qed.

(** C1, as stated, fails on a source directory whose name holds a comma:
    with [/srv/a,b] the ledger line of a valid request that succeeds is cut
    by its commas into four fields, and its second field is not the path of
    the fixture file. *)
Lemma valid_line_four_fields_in_comma_dir :
  map csv_fields
    (lines (ledger Samples.cfg_comma (snd (loop_body Samples.cfg_comma " " Samples.world))))
  = [["1700000000"; "/srv/a"; "b/MAH11-20231114-221320.pcap";
      "550ad5715ce5981e229efb02cb26f730b5e5d6595c0724403de2d6a965d60c44"]]
  /\ fst (generate_valid_record Samples.cfg_comma Samples.world)
     = (Some ("1700000000,/srv/a,b/MAH11-20231114-221320.pcap,"
              ++ "550ad5715ce5981e229efb02cb26f730b5e5d6595c0724403de2d6a965d60c44" ++ NL),
        Some "/srv/a,b/MAH11-20231114-221320.pcap").
Proof. by_computation. Qed.

(** C1 (amended): for every valid-fixture request whose fixture write
    succeeds, under a source directory whose absolute path holds no comma
    and no newline, the pass of the loop makes exactly one ledger append; the
    text appended is one physical line of exactly three comma-separated
    fields [<epoch>,<abs_path>,<digest>]; the path field is the absolute
    path, under the source directory, of the fixture file just written, whose
    content is the fixed payload; and the digest field is the SHA-256 hex
    digest of that payload. *)
Theorem valid_request_line (cfg : Config) (key : string) (w : World) :
  lower key = " " ->
  io_fault w (io_calls w) = NoFault ->
  is_absolute (SRC_DIR_PATH cfg) = true ->
  contains "," (SRC_DIR_PATH cfg) = false ->
  contains nl (SRC_DIR_PATH cfg) = false ->
  exists path text l,
    fst (generate_valid_record cfg w) = (Some text, Some path)
    /\ files (snd (generate_valid_record cfg w)) !! path = Some FILE_CONTENT
    /\ appends (new_events w (snd (loop_body cfg key w)))
       = [EvAppend (CSV_FILE_PATH cfg) text (io_fault w (S (io_calls w)))]
    /\ lines text = [l]
    /\ csv_fields l = [dec (epoch_read w); path; SHA256.hexdigest FILE_CONTENT]
    /\ path = path_join (SRC_DIR_PATH cfg) (fixture_filename (stamp_read w))
    /\ is_absolute path = true
    /\ has_dir_prefix (SRC_DIR_PATH cfg) path = true.
Proof.
  intros Hkey Hf Habs Hc Hn.
  assert (Hpc : contains "," (fixture_path cfg w) = false)
    by (apply fixture_path_excludes; [discriminate|reflexivity|reflexivity|exact Hc]).
  assert (Hpn : contains nl (fixture_path cfg w) = false)
    by (apply fixture_path_excludes; [discriminate|reflexivity|reflexivity|exact Hn]).
  destruct (record_line_fields (epoch_read w) _ Hpc Hpn) as (l & Hl & Hfields).
  exists (fixture_path cfg w), (record_line (epoch_read w) (fixture_path cfg w)), l.
  assert (Hrun : fst (generate_valid_record cfg w)
                 = (Some (record_line (epoch_read w) (fixture_path cfg w)),
                    Some (fixture_path cfg w)))
    by (rewrite generate_valid_record_run, Hf; reflexivity).
  repeat split.
  - exact Hrun.
  - rewrite generate_valid_record_run. cbn [snd].
    unfold after_fixture, after_io, written. rewrite Hf. cbn [files].
    rewrite lookup_insert_eq. reflexivity.
  - rewrite (formatter_appends cfg key (r <- generate_valid_record cfg ;; ret (fst r)) w
               (record_line (epoch_read w) (fixture_path cfg w))).
    + rewrite run_bind_ret, generate_valid_record_run. reflexivity.
    + rewrite Hkey. reflexivity.
    + rewrite run_bind_ret, Hrun. reflexivity.
    + intros E. pose proof (record_line_newline (epoch_read w) (fixture_path cfg w)) as H.
      rewrite E in H. discriminate H.
  - exact Hl.
  - rewrite <- FILE_HASH_def. exact Hfields.
  - unfold fixture_path. rewrite path_join_filename.
    apply is_absolute_app, is_absolute_with_slash, Habs.
  - apply fixture_path_under.
Qed.

Lemma valid_request_line_witness :
  (lower " " = " "
   /\ io_fault Samples.world (io_calls Samples.world) = NoFault
   /\ is_absolute (SRC_DIR_PATH Samples.cfg) = true
   /\ contains "," (SRC_DIR_PATH Samples.cfg) = false
   /\ contains nl (SRC_DIR_PATH Samples.cfg) = false) /\
  exists path text l,
    fst (generate_valid_record Samples.cfg Samples.world) = (Some text, Some path)
    /\ files (snd (generate_valid_record Samples.cfg Samples.world)) !! path
       = Some FILE_CONTENT
    /\ appends (new_events Samples.world (snd (loop_body Samples.cfg " " Samples.world)))
       = [EvAppend (CSV_FILE_PATH Samples.cfg) text
            (io_fault Samples.world (S (io_calls Samples.world)))]
    /\ lines text = [l]
    /\ csv_fields l = [dec (epoch_read Samples.world); path; SHA256.hexdigest FILE_CONTENT]
    /\ path = path_join (SRC_DIR_PATH Samples.cfg)
                (fixture_filename (stamp_read Samples.world))
    /\ is_absolute path = true
    /\ has_dir_prefix (SRC_DIR_PATH Samples.cfg) path = true.
Proof.
  split; [repeat split; reflexivity|].
  apply (valid_request_line Samples.cfg " " Samples.world); reflexivity.
Defined.

(** C2: for every valid-fixture request whose file write fails (at [open]
    or after it), [generate_valid_record] returns no record, the pass of
    the loop does nothing after that call, and so makes no ledger append: the
    only file-system call of the pass is the failed write, and a ledger kept
    apart from the fixtures is left as it was. *)
Theorem failed_write_appends_nothing (cfg : Config) (key : string) (w : World) :
  lower key = " " ->
  io_fault w (io_calls w) <> NoFault ->
  fst (generate_valid_record cfg w) = (None, None)
  /\ loop_body cfg key w = (Next, snd (generate_valid_record cfg w))
  /\ new_events w (snd (loop_body cfg key w))
     = [EvWriteBinary (fixture_path cfg w) FILE_CONTENT (io_fault w (io_calls w))]
  /\ appends (new_events w (snd (loop_body cfg key w))) = []
  /\ (ledger_apart cfg -> ledger cfg (snd (loop_body cfg key w)) = ledger cfg w).
Proof.
  intros Hkey Hf.
  assert (Hm : formatter cfg (lower key) = Some (r <- generate_valid_record cfg ;; ret (fst r)))
    by (rewrite Hkey; reflexivity).
  assert (Hnone : fst (generate_valid_record cfg w) = (None, None))
    by (rewrite generate_valid_record_run; destruct (io_fault w (io_calls w));
        [congruence | reflexivity | reflexivity]).
  assert (Hloop : loop_body cfg key w = (Next, snd (generate_valid_record cfg w)))
    by (rewrite (loop_body_formatter _ _ _ w Hm), run_bind_ret, Hnone; reflexivity).
  assert (Hev : new_events w (snd (loop_body cfg key w))
                = [EvWriteBinary (fixture_path cfg w) FILE_CONTENT (io_fault w (io_calls w))])
    by (rewrite Hloop, generate_valid_record_run; apply new_events_app; reflexivity).
  repeat split; auto.
  - rewrite Hev. reflexivity.
  - intros Hap. rewrite Hloop.
    destruct (formatter_effect cfg _ _ w Hm) as (_ & _ & _ & _ & _ & _ & Hl & _).
    rewrite run_bind_ret in Hl. exact (Hl Hap).
Qed.

Lemma failed_write_appends_nothing_witness :
  (lower " " = " "
   /\ io_fault Samples.world_failing (io_calls Samples.world_failing) <> NoFault) /\
  fst (generate_valid_record Samples.cfg Samples.world_failing) = (None, None)
  /\ appends (new_events Samples.world_failing
                (snd (loop_body Samples.cfg " " Samples.world_failing))) = [].
Proof.
  split; [split; [reflexivity | discriminate]|].
  destruct (failed_write_appends_nothing Samples.cfg " " Samples.world_failing)
    as (H1 & _ & _ & H4 & _); [reflexivity | discriminate | exact (conj H1 H4)].
Defined.

Lemma all_from_spec fuel k p :
  all_from fuel k p = true ->
  forall i, (k <= i < k + Z.of_nat fuel)%Z -> p i = true.
Proof.
  revert k. induction fuel as [|fuel IH]; intros k H i Hi; [lia|].
  cbn [all_from] in H. apply andb_true_iff in H as [Hk Hrest].
  destruct (Z.eq_dec i k) as [->|Hne]; [exact Hk|].
  apply (IH _ Hrest). lia.
Qed.

Lemma zfill2_digits n : (0 <= n <= 99)%Z -> digits 2 (zfill 2 (dec n)) = true.
Proof.
  intros Hn.
  apply (all_from_spec (Z.to_nat 100) 0 (fun n => digits 2 (zfill 2 (dec n))));
    [vm_compute; reflexivity | lia].
Qed.

Lemma zfill4_digits n : (0 <= n <= 9999)%Z -> digits 4 (zfill 4 (dec n)) = true.
Proof.
  intros Hn.
  apply (all_from_spec (Z.to_nat 10000) 0 (fun n => digits 4 (zfill 4 (dec n))));
    [vm_compute; reflexivity | lia].
Qed.

Lemma digits_app n m a b :
  digits n a = true -> digits m b = true -> digits (n + m) (a ++ b) = true.
Proof.
  unfold digits. intros Ha Hb.
  apply andb_true_iff in Ha as [La Da]. apply andb_true_iff in Hb as [Lb Db].
  apply Nat.eqb_eq in La, Lb.
  rewrite all_chars_app, Da, Db, andb_true_r. apply Nat.eqb_eq.
  clear Da Db. subst n m. induction a as [|x a IH]; simpl; [reflexivity|].
  rewrite IH. reflexivity.
Qed.

(** A name [MAH11-<8 digits>-<6 digits>.pcap] matches the pattern. *)
Lemma pattern_of_digits d8 d6 :
  digits 8 d8 = true -> digits 6 d6 = true ->
  matches_fixture_pattern ("MAH11-" ++ (d8 ++ "-" ++ d6) ++ ".pcap") = true.
Proof.
  unfold digits. intros H8 H6.
  apply andb_true_iff in H8 as [L8 D8]. apply andb_true_iff in H6 as [L6 D6].
  apply Nat.eqb_eq in L8, L6.
  do 9 (destruct d8 as [|? d8]; try discriminate L8).
  do 7 (destruct d6 as [|? d6]; try discriminate L6).
  cbn in D8, D6 |- *.
  repeat match goal with
         | H : (_ && _) = true |- _ => apply andb_true_iff in H as [? H]
         end.
  repeat match goal with
         | H : is_digit _ = true |- _ => rewrite H; clear H
         end.
  reflexivity.
Qed.

(** The file name built from a date of the years 0 to 9999 matches
    [MAH11-\d{8}-\d{6}\.pcap]. *)
Lemma filename_matches_pattern tm :
  four_digit_date tm = true -> matches_fixture_pattern (fixture_filename tm) = true.
Proof.
  unfold four_digit_date. intros H.
  repeat match goal with
         | H : (_ && _) = true |- _ => apply andb_true_iff in H as [H ?]
         end.
  repeat match goal with
         | H : (_ <=? _)%Z = true |- _ => apply Z.leb_le in H
         end.
  unfold fixture_filename, strftime_stamp.
  replace (zfill 4 (dec (tm_year tm)) ++ zfill 2 (dec (tm_mon tm))
           ++ zfill 2 (dec (tm_mday tm)) ++ "-" ++ zfill 2 (dec (tm_hour tm))
           ++ zfill 2 (dec (tm_min tm)) ++ zfill 2 (dec (tm_sec tm)))
    with ((zfill 4 (dec (tm_year tm)) ++ zfill 2 (dec (tm_mon tm))
           ++ zfill 2 (dec (tm_mday tm))) ++ "-" ++ zfill 2 (dec (tm_hour tm))
           ++ zfill 2 (dec (tm_min tm)) ++ zfill 2 (dec (tm_sec tm)))
    by (rewrite !app_assoc_s; reflexivity).
  apply pattern_of_digits.
  - apply (digits_app 4 4); [apply zfill4_digits; lia|].
    apply (digits_app 2 2); apply zfill2_digits; lia.
  - apply (digits_app 2 4); [apply zfill2_digits; lia|].
    apply (digits_app 2 2); apply zfill2_digits; lia.
Qed.

Lemma era_dates_ok : all_from (Z.to_nat 146097) 0 era_date_ok = true.
Proof. vm_compute. reflexivity. Qed.

Lemma civil_from_days_era days :
  civil_from_days days
  = let '(y, m, d) := civil_from_days ((days + 719468) mod 146097 - 719468) in
    ((y + (days + 719468) / 146097 * 400)%Z, m, d).
Proof.
  unfold civil_from_days. cbv zeta.
  replace ((days + 719468) mod 146097 - 719468 + 719468)%Z
    with ((days + 719468) mod 146097)%Z by lia.
  assert (Hd : (0 <= (days + 719468) mod 146097 < 146097)%Z)
    by (apply Z.mod_pos_bound; lia).
  rewrite (Z.div_small _ _ Hd), (Z.mod_small _ _ Hd).
  f_equal. f_equal. lia.
Qed.

(** From 1970 to the end of the year 9999 the calendar fields are in the
    ranges of a four-digit date. *)
Lemma gmtime_four_digit_date secs :
  (0 <= secs < 253402300800)%Z -> four_digit_date (gmtime secs) = true.
Proof.
  intros Hs. unfold gmtime. rewrite civil_from_days_era.
  assert (Hdays : (0 <= secs / 86400 <= 2932896)%Z).
  { split; [apply Z.div_pos; lia|]. apply Z.lt_succ_r, Z.div_lt_upper_bound; lia. }
  pose proof (Z.div_mod (secs / 86400 + 719468) 146097 ltac:(lia)) as Hz.
  assert (Hdoe : (0 <= (secs / 86400 + 719468) mod 146097 < 146097)%Z)
    by (apply Z.mod_pos_bound; lia).
  pose proof (all_from_spec _ _ _ era_dates_ok
                ((secs / 86400 + 719468) mod 146097)%Z ltac:(lia)) as Hok.
  unfold era_date_ok in Hok.
  destruct (civil_from_days ((secs / 86400 + 719468) mod 146097 - 719468))
    as [[y m] d].
  repeat match goal with
         | H : (_ && _) = true |- _ => apply andb_true_iff in H as [H ?]
         end.
  repeat match goal with
         | H : (_ <=? _)%Z = true |- _ => apply Z.leb_le in H
         end.
  assert (Hyear : (146036 < (secs / 86400 + 719468) mod 146097 \/ y <= 399)%Z).
  { match goal with
    | H : (_ || _) = true |- _ => apply orb_true_iff in H as [H|H];
        [left; apply Z.ltb_lt, H | right; apply Z.leb_le, H]
    end. }
  assert (Hr : (0 <= secs mod 86400 < 86400)%Z) by (apply Z.mod_pos_bound; lia).
  assert (Hh : (0 <= secs mod 86400 / 3600 <= 23)%Z).
  { split; [apply Z.div_pos; lia|]. apply Z.lt_succ_r, Z.div_lt_upper_bound; lia. }
  assert (Hm0 : (0 <= (secs mod 86400) mod 3600 < 3600)%Z) by (apply Z.mod_pos_bound; lia).
  assert (Hm : (0 <= (secs mod 86400) mod 3600 / 60 <= 59)%Z).
  { split; [apply Z.div_pos; lia|]. apply Z.lt_succ_r, Z.div_lt_upper_bound; lia. }
  assert (Hsec : (0 <= (secs mod 86400) mod 60 < 60)%Z) by (apply Z.mod_pos_bound; lia).
  unfold four_digit_date.
  cbn [tm_year tm_mon tm_mday tm_hour tm_min tm_sec].
  repeat (apply andb_true_iff; split); apply Z.leb_le; try lia.
Qed.

(** X16 (the first half of C3 holds on the code): when the second clock
    sample of a formatter falls, in local time, between 1970 and the end of
    the year 9999, the file name it builds matches
    [MAH11-\d{8}-\d{6}\.pcap]. *)
Lemma fixture_filename_matches_pattern (w : World) :
  let secs := (clock w (S (clock_reads w)) / 1000000000)%Z in
  (0 <= secs + utc_offset w secs < 253402300800)%Z ->
  matches_fixture_pattern (fixture_filename (stamp_read w)) = true.
Proof.
  intros secs Hs. apply filename_matches_pattern.
  unfold stamp_read, localtime_of. apply gmtime_four_digit_date. exact Hs.
Qed.

(** The two values of a valid record come from two samples of the clock;
    when the second sample falls in the second that [int(time.time())] gave
    for the first, the file name is the one of the epoch written in the
    ledger line.  (The rounding of [time.time()] to a float is left out of
    the model: just before a second boundary the code may already write the
    next second as the epoch.) *)
Lemma filename_of_epoch_same_second (w : World) :
  (clock w (S (clock_reads w)) / 1000000000 = epoch_read w)%Z ->
  fixture_filename (stamp_read w)
  = fixture_filename (localtime_of (utc_offset w) (epoch_read w)).
Proof. unfold stamp_read. intros ->. reflexivity. Qed.

(** C3 fails on the code: [generate_valid_record] samples the clock twice
    ([time.time()], then [time.localtime()]).  When the second passes
    between the two samples (1699999999.999999 s, then 1700000000.000001 s)
    the ledger line carries the epoch 1699999999 while the file is named
    after 22:13:20, the local time of 1700000000; the epoch of the line,
    converted to local time, gives 22:13:19. *)
Theorem epoch_and_filename_disagree_across_second :
  fst (generate_valid_record Samples.cfg Samples.world_tick)
  = (Some ("1699999999,/data/src/MAH11-20231114-221320.pcap,"
           ++ "550ad5715ce5981e229efb02cb26f730b5e5d6595c0724403de2d6a965d60c44" ++ NL),
     Some "/data/src/MAH11-20231114-221320.pcap")
  /\ fixture_filename (localtime_of (utc_offset Samples.world_tick) 1699999999)
     = "MAH11-20231114-221319.pcap"
  /\ matches_fixture_pattern "MAH11-20231114-221320.pcap" = true.
Proof. by_computation. Qed.

(* ===================================================================== *)
(** * The dispatch loop (C4, C9) *)
(* ===================================================================== *)

(** C4, as stated, fails for the quit selector: [q] is a recognized
    selector other than truncate, it succeeds, and it makes no append (the
    loop ends and the world is left as it was). *)
Lemma quit_appends_nothing :
  recognized (lower "q") = true
  /\ lower "q" <> "t"
  /\ loop_body Samples.cfg "q" Samples.world = (Break, Samples.world)
  /\ appends (new_events Samples.world (snd (loop_body Samples.cfg "q" Samples.world))) = [].
Proof. split_conj; [reflexivity | discriminate | reflexivity | reflexivity]. Qed.

(** Without the proviso of C4 (amended) on the ledger path the line count
    can drop: when the ledger is the very file a valid request writes its
    fixture to, a ledger of two lines is overwritten by the payload and ends
    with one line. *)
Example ledger_overwritten_when_it_is_the_fixture :
  let cfg := mkConfig "/data/src" "/data/src/MAH11-20231114-221320.pcap" in
  let w := main cfg ["1"; "1"] Samples.world in
  line_count (ledger cfg w) = 2%nat
  /\ line_count (ledger cfg (snd (loop_body cfg " " w))) = 1%nat.
Proof. cbv zeta. by_computation. Qed.

(** C4 (amended): with a ledger file that is not itself a fixture path, in
    every pass of the dispatch loop
    - the ledger's length in lines does not decrease unless the selector is
      truncate;
    - the truncate selector makes no append;
    - every recognized selector other than truncate and quit, when its
      file-system calls succeed, makes exactly one append, of the text its
      formatter produced, and the ledger grows by exactly that text;
    - quit makes no append and ends the loop, leaving the world as it was. *)
Theorem dispatch_appends (cfg : Config) (key : string) (w : World) :
  ledger_apart cfg ->
  (lower key <> "t" ->
   (line_count (ledger cfg w) <= line_count (ledger cfg (snd (loop_body cfg key w))))%nat)
  /\ (lower key = "t" -> appends (new_events w (snd (loop_body cfg key w))) = [])
  /\ (recognized (lower key) = true -> lower key <> "t" -> lower key <> "q" ->
      io_succeeds w ->
      exists m text,
        formatter cfg (lower key) = Some m
        /\ fst (m w) = Some text
        /\ appends (new_events w (snd (loop_body cfg key w)))
           = [EvAppend (CSV_FILE_PATH cfg) text NoFault]
        /\ ledger cfg (snd (loop_body cfg key w)) = ledger cfg w ++ text)
  /\ (lower key = "q" ->
      loop_body cfg key w = (Break, w)
      /\ appends (new_events w (snd (loop_body cfg key w))) = []).
Proof.
  intros Hap. split; [|split; [|split]].
  - intros Ht. destruct (recognized (lower key)) eqn:R.
    + destruct (recognized_cases cfg _ R) as [E|[E|[m Hm]]]; [congruence| |].
      * rewrite (loop_body_quit _ _ _ E). apply le_n.
      * rewrite (loop_body_formatter _ _ _ w Hm). cbn [snd].
        destruct (formatter_effect cfg _ _ w Hm) as (_ & _ & _ & _ & _ & _ & Hl & _).
        destruct (ledger_append_result cfg (fst (m w)) (snd (m w))) as [piece ->].
        rewrite (Hl Hap). apply line_count_app.
    + rewrite (loop_body_other _ _ _ R). apply le_n.
  - intros Ht. rewrite (loop_body_truncate _ _ _ Ht). cbn [snd].
    rewrite (new_events_app w _
               [EvTruncate (CSV_FILE_PATH cfg) (io_fault w (io_calls w))]); reflexivity.
  - intros R Ht Hq Hio.
    destruct (recognized_cases cfg _ R) as [E|[E|[m Hm]]]; [congruence|congruence|].
    destruct (formatter_effect cfg _ _ w Hm) as (es & k & Htr & Hes & Hf & Hk & Hl & Hsome).
    destruct Hsome as (c & s & Htext).
    { specialize (Hio 0%nat). rewrite Nat.add_0_r in Hio. exact Hio. }
    exists m, (String c s). repeat split; auto.
    + rewrite (formatter_appends cfg key m w (String c s) Hm Htext) by discriminate.
      rewrite Hk, Hio. reflexivity.
    + rewrite (loop_body_formatter _ _ _ w Hm), Htext. cbn [snd append_result].
      destruct (ledger_after_append cfg (String c s) (snd (m w))) as (piece & -> & Hp).
      rewrite (Hl Hap), Hp; [reflexivity|]. rewrite Hf, Hk. apply Hio.
  - intros Hq. rewrite (loop_body_quit _ _ _ Hq). split; [reflexivity|].
    cbn [snd]. rewrite (new_events_app w w []) by (symmetry; apply app_nil_r).
    reflexivity.
Qed.

Lemma dispatch_appends_witness :
  ledger_apart Samples.cfg /\
  exists m text,
    formatter Samples.cfg (lower "3") = Some m
    /\ fst (m Samples.world) = Some text
    /\ appends (new_events Samples.world (snd (loop_body Samples.cfg "3" Samples.world)))
       = [EvAppend (CSV_FILE_PATH Samples.cfg) text NoFault]
    /\ ledger Samples.cfg (snd (loop_body Samples.cfg "3" Samples.world))
       = ledger Samples.cfg Samples.world ++ text.
Proof.
  assert (Hap : ledger_apart Samples.cfg) by (intros tm H; vm_compute in H; discriminate H).
  split; [exact Hap|].
  destruct (dispatch_appends Samples.cfg "3" Samples.world Hap) as (_ & _ & H & _).
  apply H; [reflexivity | discriminate | discriminate | intros n; reflexivity].
Defined.

Lemma lower_ascii_idem c : lower_ascii (lower_ascii c) = lower_ascii c.
Proof. destruct c as [[] [] [] [] [] [] [] []]; reflexivity. Qed.

Lemma lower_idem s : lower (lower s) = lower s.
Proof.
  induction s as [|c s IH]; [reflexivity|].
  cbn [lower]. rewrite lower_ascii_idem, IH. reflexivity.
Qed.

(** C9: the dispatch is invariant under letter case.  A pass of the loop on
    a key is the pass on the lowered key, hence a whole run on the keys typed
    is the run on the lowered keys; [R], [O], [T] and [Q] are lowered to the
    selectors [r], [o], [t] and [q]. *)
Theorem dispatch_ignores_case (cfg : Config) :
  (forall key w, loop_body cfg key w = loop_body cfg (lower key) w)
  /\ (forall keys w, main cfg (map lower keys) w = main cfg keys w)
  /\ lower "R" = "r" /\ lower "O" = "o" /\ lower "T" = "t" /\ lower "Q" = "q".
Proof.
  assert (Hbody : forall key w, loop_body cfg key w = loop_body cfg (lower key) w)
    by (intros key w; unfold loop_body; rewrite lower_idem; reflexivity).
  repeat split; try reflexivity; [exact Hbody|].
  induction keys as [|key keys IH]; intros w; [reflexivity|].
  cbn [map main]. rewrite <- Hbody.
  destruct (loop_body cfg key w) as [[|] w']; [apply IH | reflexivity].
Qed.

(* ===================================================================== *)
(** * The malformed and the invalid-path records (C5, C6, C8, C10) *)
(* ===================================================================== *)

(** C5, as stated, fails on its first line: [garbled data, not, even close]
    holds two commas, which cut it into three fields, the number of fields of
    the schema. *)
Lemma garbled_first_line_is_schema_shaped :
  lines (fst (generate_error_record Samples.cfg "garbled" Samples.world))
  = ["garbled data, not, even close"; "to csv format!"]
  /\ csv_fields "garbled data, not, even close" = ["garbled data"; " not"; " even close"]
  /\ schema_shaped "garbled data, not, even close" = true.
Proof. by_computation. Qed.

(** C5 (amended): for every garbled request the block is the same two
    physical lines.  The first is cut by its commas into three fields, as a
    line of the schema is, but its first field is not an integer and its last
    is not a digest; the second has a single field; and no line of the block
    matches the grammar [<integer epoch>,<path>,<64-hex>] of a valid ledger
    line. *)
Theorem garbled_block (cfg : Config) (w : World) :
  lines (fst (generate_error_record cfg "garbled" w))
  = ["garbled data, not, even close"; "to csv format!"]
  /\ csv_fields "garbled data, not, even close" = ["garbled data"; " not"; " even close"]
  /\ is_integer "garbled data" = false
  /\ is_digest " even close" = false
  /\ csv_fields "to csv format!" = ["to csv format!"]
  /\ Forall (fun l => valid_ledger_line l = false)
            (lines (fst (generate_error_record cfg "garbled" w))).
Proof.
  assert (H : fst (generate_error_record cfg "garbled" w)
              = "garbled data, not, even close" ++ NL ++ "to csv format!" ++ NL)
    by reflexivity.
  rewrite H. repeat split; try reflexivity.
  repeat constructor.
Qed.

Lemma uint_nonempty d : exists c s, NilZero.string_of_uint d = String c s.
Proof. destruct d; cbn; eauto. Qed.

(** [str(n)] is a decimal integer for every [n]. *)
Lemma is_integer_dec z : is_integer (dec z) = true.
Proof.
  assert (U : forall d, all_chars is_digit (NilZero.string_of_uint d) = true)
    by (intros d; destruct d; try apply (uint_chars (_ d)); reflexivity).
  unfold dec, NilZero.string_of_int. destruct (Z.to_int z) as [d|d].
  - pose proof (U d) as Hd. destruct (uint_nonempty d) as (c & s & E).
    rewrite E in *. unfold is_integer.
    assert (Hc : is_digit c = true) by (cbn [all_chars] in Hd; apply andb_true_iff in Hd; tauto).
    destruct (Ascii.eqb_spec c "-") as [->|Hne]; [discriminate Hc|].
    destruct c as [[] [] [] [] [] [] [] []]; try exact Hd; congruence.
  - pose proof (U d) as Hd. destruct (uint_nonempty d) as (c & s & E).
    rewrite E in *. exact Hd.
Qed.

(** C8, as stated, fails for the error-type fallback on a source directory
    whose name holds a comma: with [/srv/a,b] the line returned for an
    unknown [error_type] is cut by its commas into four fields, so it is
    neither three-field nor a line of the valid grammar. *)
Lemma unknown_error_type_four_fields_in_comma_dir :
  supported_error_type "truncated" = false
  /\ map csv_fields
       (lines (fst (generate_error_record Samples.cfg_comma "truncated" Samples.world)))
     = [["1700000000"; "/srv/a"; "b/MAH11-20231114-221320.pcap";
         "550ad5715ce5981e229efb02cb26f730b5e5d6595c0724403de2d6a965d60c44"]]
  /\ map valid_ledger_line
       (lines (fst (generate_error_record Samples.cfg_comma "truncated" Samples.world)))
     = [false].
Proof. by_computation. Qed.



Lemma ends_with_contains c s : ends_with c s = true -> contains c s = true.
Proof.
  induction s as [|x s IH]; [discriminate|].
  cbn [ends_with contains]. destruct s as [|y s].
  - intros ->. reflexivity.
  - intros H. rewrite (IH H). apply orb_true_r.
Qed.

Lemma ends_with_with_slash d : ends_with slash (with_slash d) = true.
Proof.
  unfold with_slash. destruct (ends_with slash d) eqn:E; [exact E|].
  apply ends_with_app_r. reflexivity.
Qed.

(** The only directories that [/tmp/<name>] lies under, for a name without
    a slash, are [/] and [/tmp]. *)
Lemma dirs_above_tmp_entry D name :
  ends_with slash D = true -> contains slash name = false ->
  String.prefix D ("/tmp/" ++ name) = true -> D = "/" \/ D = "/tmp/".
Proof.
  intros He Hn Hp. apply prefix_split in Hp as [r Hr]. simpl in Hr.
  destruct D as [|c1 D]; [discriminate He|]. simpl in Hr. injection Hr as <- Hr.
  destruct D as [|c2 D]; [left; reflexivity|]. simpl in Hr. injection Hr as <- Hr.
  destruct D as [|c3 D]; [discriminate He|]. simpl in Hr. injection Hr as <- Hr.
  destruct D as [|c4 D]; [discriminate He|]. simpl in Hr. injection Hr as <- Hr.
  destruct D as [|c5 D]; [discriminate He|]. simpl in Hr. injection Hr as <- Hr.
  destruct D as [|c6 D]; [right; reflexivity|]. exfalso.
  change (ends_with slash ("/tmp/" ++ String c6 D) = true) in He.
  rewrite ends_with_app in He. apply ends_with_contains in He.
  rewrite Hr, contains_app, He in Hn. discriminate Hn.
Qed.

Lemma not_under_source_dir (src name : string) :
  resolved_dir src = true -> src <> "/" -> src <> "/tmp" -> src <> "/tmp/" ++ name ->
  contains slash name = false ->
  has_dir_prefix src ("/tmp/" ++ name) = false.
Proof.
  intros Hres Hroot Htmp Hself Hn. unfold has_dir_prefix.
  apply orb_false_iff. split.
  - apply String.eqb_neq. intros E. apply Hself. symmetry. exact E.
  - destruct (String.prefix (with_slash src) ("/tmp/" ++ name)) eqn:P; [exfalso|reflexivity].
    apply dirs_above_tmp_entry in P; [|apply ends_with_with_slash|exact Hn].
    unfold with_slash in P. destruct (ends_with slash src) eqn:E.
    + destruct P as [->| ->]; [congruence|]. discriminate Hres.
    + destruct P as [P|P].
      * destruct src as [|c s]; [discriminate Hres|].
        simpl in P. injection P as _ P. destruct s; discriminate P.
      * apply Htmp.
        destruct src as [|c1 s]; [discriminate P|]. simpl in P. injection P as -> P.
        destruct s as [|c2 s]; [discriminate P|]. simpl in P. injection P as -> P.
        destruct s as [|c3 s]; [discriminate P|]. simpl in P. injection P as -> P.
        destruct s as [|c4 s]; [discriminate P|]. simpl in P. injection P as -> P.
        destruct s as [|c5 s]; [reflexivity|]. simpl in P. injection P as _ P.
        destruct s; discriminate P.
Qed.

(** C6, as stated, fails when [/tmp] cannot be used: [mkdir] raises, the
    code falls back, by its [except OSError] branch, to the bare file name,
    and the path field of the record is not absolute. *)
Lemma outside_record_is_relative_when_mkdir_fails :
  fst (generate_fail_record "outside" Samples.world_failing)
  = "1700000000,MAH11-20231114-221320.pcap,"
    ++ "550ad5715ce5981e229efb02cb26f730b5e5d6595c0724403de2d6a965d60c44" ++ NL
  /\ map csv_fields (lines (fst (generate_fail_record "outside" Samples.world_failing)))
     = [["1700000000"; "MAH11-20231114-221320.pcap";
         "550ad5715ce5981e229efb02cb26f730b5e5d6595c0724403de2d6a965d60c44"]]
  /\ is_absolute "MAH11-20231114-221320.pcap" = false.
Proof. by_computation. Qed.

(** The directory of the "outside" record is the constant [/tmp]: with the
    source directory [/tmp] itself (or [/]) the record names a path under the
    source directory. *)
Example outside_record_under_source_dir_tmp :
  map csv_fields (lines (fst (generate_fail_record "outside" Samples.world)))
  = [["1700000000"; "/tmp/MAH11-20231114-221320.pcap";
      "550ad5715ce5981e229efb02cb26f730b5e5d6595c0724403de2d6a965d60c44"]]
  /\ has_dir_prefix "/tmp" "/tmp/MAH11-20231114-221320.pcap" = true
  /\ has_dir_prefix "/" "/tmp/MAH11-20231114-221320.pcap" = true.
Proof. by_computation. Qed.

(** C6 (amended): for every outside request in which [/tmp] can be used
    ([mkdir] does not raise), the record is one physical line of three fields
    whose path field is [/tmp/<filename>], an absolute path; when the
    resolved source directory is none of [/], [/tmp] and that path itself, the
    path field does not have the source directory as a lexical prefix; and
    the call creates no file: its only file-system call is the [mkdir].
    When [mkdir] raises, in any world, the code falls back to the bare file
    name, which is not absolute. *)
Theorem outside_record_path (cfg : Config) (w : World) :
  io_fault w (io_calls w) = NoFault ->
  resolved_dir (SRC_DIR_PATH cfg) = true ->
  SRC_DIR_PATH cfg <> "/" ->
  SRC_DIR_PATH cfg <> "/tmp" ->
  SRC_DIR_PATH cfg <> "/tmp/" ++ fixture_filename (stamp_read w) ->
  (exists l,
    fst (generate_fail_record "outside" w)
    = record_line (epoch_read w) ("/tmp/" ++ fixture_filename (stamp_read w))
    /\ lines (fst (generate_fail_record "outside" w)) = [l]
    /\ csv_fields l = [dec (epoch_read w); "/tmp/" ++ fixture_filename (stamp_read w);
                       FILE_HASH]
    /\ is_absolute ("/tmp/" ++ fixture_filename (stamp_read w)) = true
    /\ has_dir_prefix (SRC_DIR_PATH cfg) ("/tmp/" ++ fixture_filename (stamp_read w)) = false
    /\ files (snd (generate_fail_record "outside" w)) = files w
    /\ new_events w (snd (generate_fail_record "outside" w)) = [EvMkdir "/tmp" NoFault])
  /\ (forall w' : World,
        io_fault w' (io_calls w') <> NoFault ->
        fst (generate_fail_record "outside" w')
        = record_line (epoch_read w') (fixture_filename (stamp_read w'))
        /\ is_absolute (fixture_filename (stamp_read w')) = false
        /\ files (snd (generate_fail_record "outside" w')) = files w').
Proof.
  intros Hmk Hres Hroot Htmp Hself.
  split; [|intros w' Hw'; rewrite generate_fail_record_outside;
           destruct (io_fault w' (io_calls w')); [congruence | |]; split_conj; reflexivity].
  assert (Htext : fst (generate_fail_record "outside" w)
                  = record_line (epoch_read w) ("/tmp/" ++ fixture_filename (stamp_read w)))
    by (rewrite generate_fail_record_outside, Hmk; reflexivity).
  destruct (record_line_fields (epoch_read w) ("/tmp/" ++ fixture_filename (stamp_read w)))
    as (l & Hl & Hfields).
  { rewrite contains_app, filename_excludes; reflexivity. }
  { rewrite contains_app, filename_excludes; reflexivity. }
  exists l. rewrite Htext. repeat split; auto.
  - apply not_under_source_dir; auto. apply filename_excludes; reflexivity.
  - rewrite generate_fail_record_outside. reflexivity.
  - rewrite generate_fail_record_outside. apply new_events_app.
    cbn [snd]. unfold after_mkdir, after_io. rewrite Hmk. reflexivity.
Qed.

Lemma outside_record_path_witness :
  (io_fault Samples.world (io_calls Samples.world) = NoFault
   /\ resolved_dir (SRC_DIR_PATH Samples.cfg) = true
   /\ SRC_DIR_PATH Samples.cfg <> "/"
   /\ SRC_DIR_PATH Samples.cfg <> "/tmp"
   /\ SRC_DIR_PATH Samples.cfg <> "/tmp/" ++ fixture_filename (stamp_read Samples.world)) /\
  exists l,
    fst (generate_fail_record "outside" Samples.world)
    = record_line (epoch_read Samples.world)
        ("/tmp/" ++ fixture_filename (stamp_read Samples.world))
    /\ lines (fst (generate_fail_record "outside" Samples.world)) = [l]
    /\ csv_fields l = [dec (epoch_read Samples.world);
                       "/tmp/" ++ fixture_filename (stamp_read Samples.world); FILE_HASH]
    /\ is_absolute ("/tmp/" ++ fixture_filename (stamp_read Samples.world)) = true
    /\ has_dir_prefix (SRC_DIR_PATH Samples.cfg)
         ("/tmp/" ++ fixture_filename (stamp_read Samples.world)) = false
    /\ files (snd (generate_fail_record "outside" Samples.world)) = files Samples.world
    /\ new_events Samples.world (snd (generate_fail_record "outside" Samples.world))
       = [EvMkdir "/tmp" NoFault].
Proof.
  split; [repeat split; try reflexivity; discriminate|].
  destruct (outside_record_path Samples.cfg Samples.world) as [H _];
    try reflexivity; try discriminate. exact H.
Defined.

Lemma formatter_text_newline cfg ch m w t :
  formatter cfg ch = Some m -> fst (m w) = Some t -> ends_with nl t = true.
Proof.
  unfold formatter.
  repeat match goal with
         | |- context [if String.eqb ch ?s then _ else _] => destruct (String.eqb ch s)
         end;
    intros [= <-]; rewrite run_bind_ret; cbn [fst]; intros H;
    try (apply (inj Some) in H; rewrite <- H;
         first [apply error_record_newline | apply fail_record_newline]).
  rewrite generate_valid_record_run in H. cbn [fst] in H.
  destruct (io_fault w (io_calls w)); try discriminate H.
  apply (inj Some) in H. rewrite <- H. apply record_line_newline.
Qed.

Lemma no_appends_end_lines es : appends es = [] -> Forall append_ends_line es.
Proof.
  induction es as [|e es IH]; [constructor|].
  destruct e; cbn [appends List.filter is_append]; intros H; try discriminate H;
    constructor; try exact I; apply IH; exact H.
Qed.

(** C10: every text block a formatter produces ends with a newline: the
    block of [generate_error_record] and of [generate_fail_record] for every
    type, supported or not (the four malformed kinds, the two path kinds and
    the two fallbacks), and the line of [generate_valid_record] when it
    returns one.  Hence the text of every append a pass of the loop makes
    ends with a newline, and such a text added after a content that leaves no
    line open adds its own lines whole and leaves no line open either: blocks
    of consecutive appends share no physical line. *)
Theorem blocks_end_with_newline (cfg : Config) (w : World) :
  (forall error_type, ends_with nl (fst (generate_error_record cfg error_type w)) = true)
  /\ (forall fail_type, ends_with nl (fst (generate_fail_record fail_type w)) = true)
  /\ (fst (fst (generate_valid_record cfg w)) = None
      \/ exists text, fst (fst (generate_valid_record cfg w)) = Some text
                      /\ ends_with nl text = true)
  /\ (forall key, Forall append_ends_line (new_events w (snd (loop_body cfg key w))))
  /\ (forall before text,
        newline_terminated before -> ends_with nl text = true ->
        lines (before ++ text) = (lines before ++ lines text)%list
        /\ newline_terminated (before ++ text)).
Proof.
  split; [|split; [|split; [|split]]].
  - intros ty. apply error_record_newline.
  - intros ty. apply fail_record_newline.
  - rewrite generate_valid_record_run. cbn [fst].
    destruct (io_fault w (io_calls w)); [right|left; reflexivity|left; reflexivity].
    eexists. split; [reflexivity|]. apply record_line_newline.
  - intros key. destruct (recognized (lower key)) eqn:R.
    + destruct (recognized_cases cfg _ R) as [E|[E|[m Hm]]].
      * rewrite (loop_body_truncate _ _ _ E). cbn [snd].
        rewrite (new_events_app w _
                   [EvTruncate (CSV_FILE_PATH cfg) (io_fault w (io_calls w))])
          by reflexivity.
        repeat constructor.
      * rewrite (loop_body_quit _ _ _ E). cbn [snd].
        rewrite (new_events_app w w []) by (symmetry; apply app_nil_r). constructor.
      * rewrite (loop_body_formatter _ _ _ w Hm). cbn [snd].
        destruct (formatter_effect cfg _ _ w Hm) as (es & k & Htr & Hes & Hf & _).
        destruct (fst (m w)) as [[|c s]|] eqn:Ht; cbn [append_result].
        -- rewrite (new_events_app w _ es Htr). apply no_appends_end_lines, Hes.
        -- rewrite (new_events_app w _
                      (es ++ [EvAppend (CSV_FILE_PATH cfg) (String c s)
                                (io_fault (snd (m w)) (io_calls (snd (m w))))])).
           ++ apply Forall_app. split; [apply no_appends_end_lines, Hes|].
              constructor; [|constructor].
              exact (formatter_text_newline cfg _ m w _ Hm Ht).
           ++ unfold after_append, after_io. cbn [trace].
              rewrite Htr, <- app_assoc. reflexivity.
        -- rewrite (new_events_app w _ es Htr). apply no_appends_end_lines, Hes.
    + rewrite (loop_body_other _ _ _ R). cbn [snd].
      rewrite (new_events_app w w []) by (symmetry; apply app_nil_r). constructor.
  - intros before text Hb Ht. split; [apply lines_app, Hb|].
    right. apply ends_with_app_r, Ht.
Qed.

(* ===================================================================== *)
(** * The mock upload endpoint (C7) *)
(* ===================================================================== *)

Lemma serve_from (reqs : list DataRx.request) (c : Z) (lg : list string) :
  DataRx.serve reqs (DataRx.mkServer c lg)
  = map (fun k => DataRx.mkReply "OK" 200
                    (if ((c + Z.of_nat k + 1) mod 20 =? 0)%Z then 6%Z else 0%Z))
        (seq 0 (length reqs)).
Proof.
  revert c lg. induction reqs as [|r reqs IH]; intros c lg; [reflexivity|].
  cbn [DataRx.serve length seq map]. unfold DataRx.upload.
  cbn [DataRx.upload_counter DataRx.logged].
  replace (c + Z.of_nat 0 + 1)%Z with (c + 1)%Z by lia.
  destruct ((c + 1) mod 20 =? 0)%Z; rewrite IH; f_equal;
    rewrite <- seq_shift, map_map; apply map_ext; intros k;
    replace (c + 1 + Z.of_nat k + 1)%Z with (c + Z.of_nat (S k) + 1)%Z by lia; reflexivity.
Qed.

(** C7: [upload] returns the body [OK] with status 200 whatever the request
    holds; it adds one to the counter, and holds the response for 6 seconds
    exactly when the new counter value is a multiple of 20.  Hence, from the
    start of the process, the replies to any sequence of requests are all
    [OK]/200 and the held ones are exactly the 20th, the 40th, and so on. *)
Theorem upload_reply :
  (forall req s,
     DataRx.body (fst (DataRx.upload req s)) = "OK"
     /\ DataRx.status (fst (DataRx.upload req s)) = 200%Z
     /\ DataRx.upload_counter (snd (DataRx.upload req s)) = (DataRx.upload_counter s + 1)%Z
     /\ DataRx.held (fst (DataRx.upload req s))
        = (if (DataRx.upload_counter (snd (DataRx.upload req s)) mod 20 =? 0)%Z
           then 6%Z else 0%Z))
  /\ (forall req req' s, fst (DataRx.upload req s) = fst (DataRx.upload req' s))
  /\ (forall reqs,
        DataRx.serve reqs DataRx.start
        = map (fun k => DataRx.mkReply "OK" 200
                          (if ((Z.of_nat k + 1) mod 20 =? 0)%Z then 6%Z else 0%Z))
              (seq 0 (length reqs))).
Proof.
  split; [|split].
  - intros req s. unfold DataRx.upload.
    destruct ((DataRx.upload_counter s + 1) mod 20 =? 0)%Z eqn:E;
      cbn [fst snd DataRx.body DataRx.status DataRx.held DataRx.upload_counter];
      rewrite E; repeat split; reflexivity.
  - intros req req' s. unfold DataRx.upload.
    destruct ((DataRx.upload_counter s + 1) mod 20 =? 0)%Z; reflexivity.
  - intros reqs. unfold DataRx.start. rewrite serve_from. apply map_ext. intros k.
    replace (0 + Z.of_nat k + 1)%Z with (Z.of_nat k + 1)%Z by lia. reflexivity.
Qed.

(* ===================================================================== *)
(** * Further properties: the shapes of the malformed and relative records *)
(* ===================================================================== *)

Lemma generate_error_record_missing_field cfg w :
  fst (generate_error_record cfg "missing_field" w) = dec (epoch_read w) ++ NL.
Proof. reflexivity. Qed.

Lemma generate_error_record_empty_path cfg w :
  fst (generate_error_record cfg "empty_path" w)
  = (dec (epoch_read w) ++ "," ++ "" ++ "," ++ FILE_HASH) ++ NL.
Proof.
  transitivity (dec (epoch_read w) ++ ",," ++ FILE_HASH ++ NL); [reflexivity|].
  rewrite !app_assoc_s. reflexivity.
Qed.

Lemma generate_error_record_extra_row cfg w :
  fst (generate_error_record cfg "extra_row" w)
  = record_line (epoch_read w) (fixture_path cfg w) ++ "EXTRA,ROW,DATA" ++ NL.
Proof.
  transitivity (dec (epoch_read w) ++ "," ++ fixture_path cfg w ++ "," ++ FILE_HASH ++ NL
                ++ "EXTRA,ROW,DATA" ++ NL); [reflexivity|].
  unfold record_line. rewrite !app_assoc_s. reflexivity.
Qed.

(** X1: the block of the [missing_field] kind is one physical line holding a
    single comma-free field, the epoch in decimal; it is not a line of the
    valid grammar. *)
Theorem missing_field_block (cfg : Config) (w : World) :
  lines (fst (generate_error_record cfg "missing_field" w)) = [dec (epoch_read w)]
  /\ csv_fields (dec (epoch_read w)) = [dec (epoch_read w)]
  /\ is_integer (dec (epoch_read w)) = true
  /\ valid_ledger_line (dec (epoch_read w)) = false.
Proof.
  assert (Hc : contains "," (dec (epoch_read w)) = false)
    by (apply dec_excludes; reflexivity).
  assert (Hf : csv_fields (dec (epoch_read w)) = [dec (epoch_read w)])
    by (apply split_on_no_sep, Hc).
  rewrite generate_error_record_missing_field. split_conj.
  - apply lines_terminated, dec_excludes. reflexivity.
  - exact Hf.
  - apply is_integer_dec.
  - unfold valid_ledger_line. rewrite Hf. reflexivity.
Qed.

(** X2: the block of the [empty_path] kind is one physical line of exactly
    three comma-separated fields: the epoch, an empty path, the digest of the
    payload. *)
Theorem empty_path_block (cfg : Config) (w : World) :
  exists l,
    lines (fst (generate_error_record cfg "empty_path" w)) = [l]
    /\ csv_fields l = [dec (epoch_read w); ""; SHA256.hexdigest FILE_CONTENT].
Proof.
  exists (dec (epoch_read w) ++ "," ++ "" ++ "," ++ FILE_HASH).
  assert (Hf : csv_fields (dec (epoch_read w) ++ "," ++ "" ++ "," ++ FILE_HASH)
               = [dec (epoch_read w); ""; FILE_HASH])
    by (apply csv_fields_three;
        [apply dec_excludes; reflexivity | reflexivity | apply FILE_HASH_no_comma]).
  rewrite generate_error_record_empty_path. split_conj.
  - apply lines_terminated.
    rewrite !contains_app, FILE_HASH_no_nl, (dec_excludes nl) by reflexivity. reflexivity.
  - rewrite <- FILE_HASH_def. exact Hf.
Qed.

(** X3: the block of the [extra_row] kind is the line a valid record would
    be in the same world, followed by the line [EXTRA,ROW,DATA].  With a
    source directory free of commas and newlines these are two physical
    lines of three fields each, the first with the fixture path the valid
    formatter would use. *)
Theorem extra_row_block (cfg : Config) (w : World) :
  contains "," (SRC_DIR_PATH cfg) = false ->
  contains nl (SRC_DIR_PATH cfg) = false ->
  exists l,
    fst (generate_error_record cfg "extra_row" w)
    = record_line (epoch_read w) (fixture_path cfg w) ++ "EXTRA,ROW,DATA" ++ NL
    /\ lines (fst (generate_error_record cfg "extra_row" w)) = [l; "EXTRA,ROW,DATA"]
    /\ csv_fields l = [dec (epoch_read w); fixture_path cfg w; FILE_HASH]
    /\ valid_ledger_line l = true
    /\ csv_fields "EXTRA,ROW,DATA" = ["EXTRA"; "ROW"; "DATA"]
    /\ valid_ledger_line "EXTRA,ROW,DATA" = false.
Proof.
  intros Hc Hn.
  destruct (record_line_fields (epoch_read w) (fixture_path cfg w)) as (l & Hl & Hf).
  { apply fixture_path_excludes; [discriminate|reflexivity|reflexivity|exact Hc]. }
  { apply fixture_path_excludes; [discriminate|reflexivity|reflexivity|exact Hn]. }
  exists l. rewrite generate_error_record_extra_row. split_conj; try reflexivity.
  - rewrite lines_app by (right; apply record_line_newline). rewrite Hl. reflexivity.
  - exact Hf.
  - unfold valid_ledger_line. rewrite Hf, is_integer_dec, FILE_HASH_is_digest. reflexivity.
Qed.

Lemma extra_row_block_witness :
  (contains "," (SRC_DIR_PATH Samples.cfg) = false
   /\ contains nl (SRC_DIR_PATH Samples.cfg) = false) /\
  exists l,
    lines (fst (generate_error_record Samples.cfg "extra_row" Samples.world))
    = [l; "EXTRA,ROW,DATA"]
    /\ csv_fields l = [dec (epoch_read Samples.world);
                       fixture_path Samples.cfg Samples.world; FILE_HASH].
Proof.
  split; [split; reflexivity|].
  destruct (extra_row_block Samples.cfg Samples.world) as (l & _ & H1 & H2 & _);
    [reflexivity | reflexivity |].
  exists l. split; [exact H1 | exact H2].
Defined.

(** X4: [generate_error_record] touches nothing but the clock: for every
    error type, supported or not, it makes no file-system call, leaves every
    file as it was, and takes exactly two clock samples. *)
Theorem error_record_touches_no_file (cfg : Config) (error_type : string) (w : World) :
  files (snd (generate_error_record cfg error_type w)) = files w
  /\ trace (snd (generate_error_record cfg error_type w)) = trace w
  /\ io_calls (snd (generate_error_record cfg error_type w)) = io_calls w
  /\ clock_reads (snd (generate_error_record cfg error_type w)) = S (S (clock_reads w)).
Proof. rewrite generate_error_record_world. split_conj; reflexivity. Qed.

(** X5: the record of the [relative] kind is one physical line of exactly
    three fields, the epoch, the path and the digest of the payload; its path
    field is the bare file name, which is not absolute and holds no path
    separator. *)
Theorem relative_record (w : World) :
  exists l,
    lines (fst (generate_fail_record "relative" w)) = [l]
    /\ csv_fields l = [dec (epoch_read w); fixture_filename (stamp_read w);
                       SHA256.hexdigest FILE_CONTENT]
    /\ is_absolute (fixture_filename (stamp_read w)) = false
    /\ contains slash (fixture_filename (stamp_read w)) = false.
Proof.
  destruct (record_line_fields (epoch_read w) (fixture_filename (stamp_read w)))
    as (l & Hl & Hf); try (apply filename_excludes; reflexivity).
  exists l. rewrite generate_fail_record_relative. cbn [fst]. split_conj.
  - exact Hl.
  - rewrite <- FILE_HASH_def. exact Hf.
  - reflexivity.
  - apply filename_excludes; reflexivity.
Qed.

(** X6: [generate_fail_record] never creates or changes a file, whatever the
    fail type and whatever [mkdir] does; its only possible file-system call
    is the [mkdir] of [/tmp], made for the [outside] kind alone. *)
Theorem fail_record_touches_no_file (fail_type : string) (w : World) :
  files (snd (generate_fail_record fail_type w)) = files w
  /\ new_events w (snd (generate_fail_record fail_type w))
     = (if String.eqb fail_type "outside"
        then [EvMkdir "/tmp" (io_fault w (io_calls w))] else [])
  /\ clock_reads (snd (generate_fail_record fail_type w)) = S (S (clock_reads w)).
Proof.
  rewrite fail_record_world.
  destruct (String.eqb fail_type "outside"); split_conj; try reflexivity.
  - apply new_events_app. reflexivity.
  - apply new_events_app. symmetry. apply app_nil_r.
Qed.

(* ===================================================================== *)
(** * Further properties: the dispatch loop as a whole *)
(* ===================================================================== *)

Lemma lookup_written_ne path old data f (fs : gmap string string) p :
  p <> path -> written path old data f fs !! p = fs !! p.
Proof. intros H. destruct f; cbn [written]; rewrite ?lookup_insert_ne; auto. Qed.

Lemma lookup_written_some path old data f (fs : gmap string string) p :
  is_Some (fs !! p) -> is_Some (written path old data f fs !! p).
Proof.
  intros H. destruct (decide (p = path)) as [->|Hne].
  - destruct f; cbn [written]; rewrite ?lookup_insert_eq; eauto.
  - rewrite lookup_written_ne; auto.
Qed.

(** The files a formatter leaves: only the fixture path can change, and
    only under the valid selector. *)
Lemma formatter_frame cfg ch m w :
  formatter cfg ch = Some m ->
  (forall p, p <> fixture_path cfg w -> files (snd (m w)) !! p = files w !! p)
  /\ (forall p, is_Some (files w !! p) -> is_Some (files (snd (m w)) !! p))
  /\ (ch <> " " -> files (snd (m w)) = files w).
Proof.
  unfold formatter.
  destruct (String.eqb_spec ch " ") as [->|Hsp].
  - intros [= <-]. rewrite run_bind_ret, generate_valid_record_run. cbn [snd].
    unfold after_fixture, after_io. cbn [files after_clock]. split_conj.
    + intros p Hp. apply lookup_written_ne, Hp.
    + intros p Hp. apply lookup_written_some, Hp.
    + congruence.
  - repeat match goal with
           | |- context [if String.eqb ch ?s then _ else _] => destruct (String.eqb ch s)
           end;
      intros [= <-]; rewrite run_bind_ret; cbn [snd];
      rewrite ?generate_error_record_world, ?fail_record_world;
      cbn [String.eqb Ascii.eqb Bool.eqb]; split_conj; auto.
Qed.

Lemma files_append_result cfg o w :
  (forall p, p <> CSV_FILE_PATH cfg -> files (append_result cfg o w) !! p = files w !! p)
  /\ (forall p, is_Some (files w !! p) -> is_Some (files (append_result cfg o w) !! p))
  /\ io_fault (append_result cfg o w) = io_fault w.
Proof.
  destruct o as [[|c s]|]; cbn [append_result]; split_conj; auto.
  - intros p Hp. apply lookup_written_ne, Hp.
  - intros p Hp. apply lookup_written_some, Hp.
Qed.

Lemma loop_body_io_fault cfg key w :
  io_fault (snd (loop_body cfg key w)) = io_fault w.
Proof.
  destruct (recognized (lower key)) eqn:R.
  - destruct (recognized_cases cfg _ R) as [E|[E|[m Hm]]].
    + rewrite (loop_body_truncate _ _ _ E). reflexivity.
    + rewrite (loop_body_quit _ _ _ E). reflexivity.
    + rewrite (loop_body_formatter _ _ _ w Hm). cbn [snd].
      destruct (files_append_result cfg (fst (m w)) (snd (m w))) as (_ & _ & ->).
      destruct (formatter_effect cfg _ _ w Hm) as (_ & _ & _ & _ & Hf & _). exact Hf.
  - rewrite (loop_body_other _ _ _ R). reflexivity.
Qed.

Lemma loop_body_next cfg key w :
  is_quit key = false -> fst (loop_body cfg key w) = Next.
Proof.
  unfold is_quit. intros Hq. apply String.eqb_neq in Hq.
  destruct (recognized (lower key)) eqn:R.
  - destruct (recognized_cases cfg _ R) as [E|[E|[m Hm]]]; [|congruence|].
    + rewrite (loop_body_truncate _ _ _ E). reflexivity.
    + rewrite (loop_body_formatter _ _ _ w Hm). reflexivity.
  - rewrite (loop_body_other _ _ _ R). reflexivity.
Qed.

(** X7: keys that are no selector are ignored: a run on the keys typed is
    the run on the selectors among them. *)
Theorem unrecognized_keys_ignored (cfg : Config) (keys : list string) (w : World) :
  main cfg (List.filter is_selector keys) w = main cfg keys w.
Proof.
  revert w. induction keys as [|key keys IH]; intros w; [reflexivity|].
  cbn [List.filter]. destruct (is_selector key) eqn:R.
  - cbn [main]. destruct (loop_body cfg key w) as [[|] w']; [apply IH | reflexivity].
  - cbn [main]. rewrite (loop_body_other cfg key w R). apply IH.
Qed.

(** X8: the quit selector ends the run: whatever is typed after a quit key
    has no effect, and the quit key itself changes nothing. *)
Theorem quit_ends_run (cfg : Config) (before after : list string) (key : string)
    (w : World) :
  is_quit key = true ->
  main cfg (before ++ key :: after) w = main cfg before w.
Proof.
  unfold is_quit. intros Hq. apply String.eqb_eq in Hq.
  revert w. induction before as [|k before IH]; intros w.
  - cbn [main app]. rewrite (loop_body_quit cfg key w Hq). reflexivity.
  - change ((k :: before) ++ key :: after)%list with (k :: (before ++ key :: after))%list.
    cbn [main]. destruct (loop_body cfg k w) as [[|] w']; [apply IH | reflexivity].
Qed.

Lemma quit_ends_run_witness :
  is_quit "Q" = true /\
  main Samples.cfg ([" "; "1"] ++ "Q" :: ["2"; "t"]) Samples.world
  = main Samples.cfg [" "; "1"] Samples.world.
Proof. split; [reflexivity | apply quit_ends_run; reflexivity]. Defined.

(** X9: the loop keeps no state of its own between passes: a run on keys
    typed in two parts, the first without a quit key, is the run on the
    second part from the world the first part leaves. *)
Theorem runs_compose (cfg : Config) (first second : list string) (w : World) :
  forallb (fun k => negb (is_quit k)) first = true ->
  main cfg (first ++ second) w = main cfg second (main cfg first w).
Proof.
  revert w. induction first as [|k first IH]; intros w H; [reflexivity|].
  cbn [forallb] in H. apply andb_true_iff in H as [Hk H].
  apply negb_true_iff in Hk.
  change ((k :: first) ++ second)%list with (k :: (first ++ second))%list.
  cbn [main]. pose proof (loop_body_next cfg k w Hk) as Hn.
  destruct (loop_body cfg k w) as [c w']. cbn [fst] in Hn. subst c. apply IH, H.
Qed.

Lemma runs_compose_witness :
  forallb (fun k => negb (is_quit k)) [" "; "3"] = true /\
  main Samples.cfg ([" "; "3"] ++ ["t"; "r"]) Samples.world
  = main Samples.cfg ["t"; "r"] (main Samples.cfg [" "; "3"] Samples.world).
Proof. split; [reflexivity | apply runs_compose; reflexivity]. Defined.

(** X10: the truncate selector empties the ledger, creating it when it is
    absent, unless [open] itself fails, in which case the files are left as
    they were; it touches no other file, reads no clock, and the loop goes
    on.  A second truncate after one that got past [open] changes no
    file. *)
Theorem truncate_empties_ledger (cfg : Config) (key : string) (w : World) :
  is_truncate key = true ->
  fst (loop_body cfg key w) = Next
  /\ (io_fault w (io_calls w) <> FailOpen ->
      files (snd (loop_body cfg key w)) !! CSV_FILE_PATH cfg = Some "")
  /\ (io_fault w (io_calls w) = FailOpen -> files (snd (loop_body cfg key w)) = files w)
  /\ (forall p, p <> CSV_FILE_PATH cfg ->
                files (snd (loop_body cfg key w)) !! p = files w !! p)
  /\ clock_reads (snd (loop_body cfg key w)) = clock_reads w
  /\ (io_fault w (io_calls w) <> FailOpen ->
      files (snd (loop_body cfg key (snd (loop_body cfg key w))))
      = files (snd (loop_body cfg key w))).
Proof.
  unfold is_truncate. intros Ht. apply String.eqb_eq in Ht.
  rewrite !(loop_body_truncate cfg key _ Ht). cbn [fst snd].
  unfold after_truncate, after_io. cbn [files clock_reads io_fault io_calls].
  split_conj.
  - reflexivity.
  - intros Hf. destruct (io_fault w (io_calls w)); [|congruence|]; apply lookup_insert_eq.
  - intros ->. reflexivity.
  - intros p Hp. destruct (io_fault w (io_calls w)); rewrite ?lookup_insert_ne; auto.
  - reflexivity.
  - intros Hf.
    destruct (io_fault w (io_calls w)); [|congruence|];
      destruct (io_fault w (S (io_calls w))); rewrite ?insert_insert_eq; reflexivity.
Qed.

Lemma truncate_empties_ledger_witness :
  is_truncate "T" = true /\
  ledger Samples.cfg (main Samples.cfg ["1"; "2"] Samples.world) <> ""
  /\ files (snd (loop_body Samples.cfg "T" (main Samples.cfg ["1"; "2"] Samples.world)))
       !! CSV_FILE_PATH Samples.cfg = Some "".
Proof.
  split; [reflexivity|]. split; [vm_compute; discriminate|].
  destruct (truncate_empties_ledger Samples.cfg "T"
              (main Samples.cfg ["1"; "2"] Samples.world)) as (_ & H & _);
    [reflexivity|]. apply H. vm_compute. discriminate.
Defined.

(** X11: a pass of the loop never removes a file and writes at two paths at
    most: every path other than the ledger and the fixture path of the pass
    keeps its content, and under every selector but the valid one only the
    ledger can change. *)
Theorem loop_writes_ledger_and_fixture_only (cfg : Config) (key : string) (w : World)
    (p : string) :
  (p <> CSV_FILE_PATH cfg -> p <> fixture_path cfg w ->
   files (snd (loop_body cfg key w)) !! p = files w !! p)
  /\ (p <> CSV_FILE_PATH cfg -> lower key <> " " ->
      files (snd (loop_body cfg key w)) !! p = files w !! p)
  /\ (is_Some (files w !! p) -> is_Some (files (snd (loop_body cfg key w)) !! p)).
Proof.
  destruct (recognized (lower key)) eqn:R.
  - destruct (recognized_cases cfg _ R) as [E|[E|[m Hm]]].
    + rewrite (loop_body_truncate _ _ _ E). cbn [snd].
      unfold after_truncate, after_io. cbn [files]. split_conj.
      * intros Hp _. destruct (io_fault w (io_calls w)); rewrite ?lookup_insert_ne; auto.
      * intros Hp _. destruct (io_fault w (io_calls w)); rewrite ?lookup_insert_ne; auto.
      * intros Hs. destruct (io_fault w (io_calls w)); auto;
          (destruct (decide (p = CSV_FILE_PATH cfg)) as [->|Hne];
           [rewrite lookup_insert_eq; eauto | rewrite lookup_insert_ne; auto]).
    + rewrite (loop_body_quit _ _ _ E). cbn [snd]. split_conj; auto.
    + rewrite (loop_body_formatter _ _ _ w Hm). cbn [snd].
      destruct (formatter_frame cfg _ m w Hm) as (Hfr & Hsome & Hsame).
      destruct (files_append_result cfg (fst (m w)) (snd (m w))) as (Ha & Hb & _).
      split_conj.
      * intros Hc Hf. rewrite (Ha _ Hc). apply Hfr, Hf.
      * intros Hc Hk. rewrite (Ha _ Hc), (Hsame Hk). reflexivity.
      * intros Hs. apply Hb, Hsome, Hs.
  - rewrite (loop_body_other _ _ _ R). cbn [snd]. split_conj; auto.
Qed.

(** One pass on a key that is not the truncate selector adds a piece at the
    end of the ledger (possibly empty, possibly partial). *)
Lemma pass_extends_ledger cfg key w :
  ledger_apart cfg -> is_truncate key = false ->
  exists piece, ledger cfg (snd (loop_body cfg key w)) = ledger cfg w ++ piece.
Proof.
  unfold is_truncate. intros Hap Ht. apply String.eqb_neq in Ht.
  destruct (recognized (lower key)) eqn:R.
  - destruct (recognized_cases cfg _ R) as [E|[E|[m Hm]]]; [congruence| |].
    + rewrite (loop_body_quit _ _ _ E). exists "". now rewrite app_empty_r.
    + rewrite (loop_body_formatter _ _ _ w Hm). cbn [snd].
      destruct (formatter_effect cfg _ _ w Hm) as (_ & _ & _ & _ & _ & _ & Hl & _).
      destruct (ledger_append_result cfg (fst (m w)) (snd (m w))) as [piece ->].
      rewrite (Hl Hap). eauto.
  - rewrite (loop_body_other _ _ _ R). exists "". now rewrite app_empty_r.
Qed.

(** X14: the ledger is append-only: over a run without a truncate key, and
    with a ledger file that is no fixture path, the final ledger is the
    initial one followed by what the run added, whatever calls failed. *)
Theorem run_extends_ledger (cfg : Config) (keys : list string) (w : World) :
  ledger_apart cfg ->
  forallb (fun k => negb (is_truncate k)) keys = true ->
  exists added, ledger cfg (main cfg keys w) = ledger cfg w ++ added.
Proof.
  intros Hap. revert w. induction keys as [|k keys IH]; intros w H.
  - exists "". cbn [main]. now rewrite app_empty_r.
  - cbn [forallb] in H. apply andb_true_iff in H as [Hk H]. apply negb_true_iff in Hk.
    destruct (pass_extends_ledger cfg k w Hap Hk) as [piece Hp].
    cbn [main]. destruct (loop_body cfg k w) as [[|] w']; cbn [snd] in Hp.
    + destruct (IH w' H) as [added ->]. rewrite Hp, app_assoc_s. eauto.
    + eauto.
Qed.

Lemma run_extends_ledger_witness :
  (ledger_apart Samples.cfg
   /\ forallb (fun k => negb (is_truncate k)) ["1"; " "; "x"; "o"] = true) /\
  exists added,
    ledger Samples.cfg
      (main Samples.cfg ["1"; " "; "x"; "o"] (main Samples.cfg ["4"] Samples.world))
    = ledger Samples.cfg (main Samples.cfg ["4"] Samples.world) ++ added.
Proof.
  assert (Hap : ledger_apart Samples.cfg) by (intros tm H; vm_compute in H; discriminate H).
  split; [split; [exact Hap | reflexivity]|].
  apply run_extends_ledger; [exact Hap | reflexivity].
Defined.

(** One pass with every call succeeding keeps the ledger free of open lines. *)
Lemma pass_keeps_ledger_terminated cfg key w :
  ledger_apart cfg -> all_io_ok w -> newline_terminated (ledger cfg w) ->
  newline_terminated (ledger cfg (snd (loop_body cfg key w))).
Proof.
  intros Hap Hok Hnt.
  destruct (recognized (lower key)) eqn:R.
  - destruct (recognized_cases cfg _ R) as [E|[E|[m Hm]]].
    + rewrite (loop_body_truncate _ _ _ E). cbn [snd]. left.
      unfold ledger, after_truncate, after_io. cbn [files]. rewrite (Hok (io_calls w)).
      rewrite lookup_insert_eq. reflexivity.
    + rewrite (loop_body_quit _ _ _ E). exact Hnt.
    + rewrite (loop_body_formatter _ _ _ w Hm). cbn [snd].
      destruct (formatter_effect cfg _ _ w Hm) as (_ & _ & _ & _ & Hf & _ & Hl & _).
      destruct (fst (m w)) as [[|c s]|] eqn:Ht; cbn [append_result];
        try (rewrite (Hl Hap); exact Hnt).
      destruct (ledger_after_append cfg (String c s) (snd (m w))) as (piece & -> & Hp).
      rewrite Hp by (rewrite Hf; apply Hok). rewrite (Hl Hap).
      right. apply ends_with_app_r. exact (formatter_text_newline cfg _ m w _ Hm Ht).
  - rewrite (loop_body_other _ _ _ R). exact Hnt.
Qed.

(** X13: when every file-system call succeeds and the ledger file is no
    fixture path, a ledger that holds no open line at the start holds none
    after any run: a reader between two passes never sees a torn record. *)
Theorem run_keeps_ledger_terminated (cfg : Config) (keys : list string) (w : World) :
  ledger_apart cfg -> all_io_ok w -> newline_terminated (ledger cfg w) ->
  newline_terminated (ledger cfg (main cfg keys w)).
Proof.
  intros Hap. revert w. induction keys as [|k keys IH]; intros w Hok Hnt; [exact Hnt|].
  pose proof (pass_keeps_ledger_terminated cfg k w Hap Hok Hnt) as Hp.
  pose proof (loop_body_io_fault cfg k w) as Hf.
  cbn [main]. destruct (loop_body cfg k w) as [[|] w']; cbn [snd] in Hp, Hf; [|exact Hp].
  apply IH; [|exact Hp]. intros n. rewrite Hf. apply Hok.
Qed.

Lemma run_keeps_ledger_terminated_witness :
  (ledger_apart Samples.cfg /\ all_io_ok Samples.world
   /\ newline_terminated (ledger Samples.cfg Samples.world)) /\
  newline_terminated
    (ledger Samples.cfg (main Samples.cfg [" "; "3"; "t"; "4"; "O"] Samples.world)).
Proof.
  assert (Hap : ledger_apart Samples.cfg) by (intros tm H; vm_compute in H; discriminate H).
  assert (Hok : all_io_ok Samples.world) by (intros n; reflexivity).
  assert (Hnt : newline_terminated (ledger Samples.cfg Samples.world)) by (left; reflexivity).
  split; [split; [exact Hap | split; [exact Hok | exact Hnt]]|].
  apply run_keeps_ledger_terminated; assumption.
Defined.

(* ===================================================================== *)
(** * Further properties: fixture names, and the upload stub over time *)
(* ===================================================================== *)

Lemma ledger_after_fixture cfg w :
  ledger_apart cfg -> ledger cfg (after_fixture cfg w) = ledger cfg w.
Proof.
  intros Hap. unfold ledger, after_fixture, after_io. cbn [files after_clock].
  rewrite lookup_written_ne; [reflexivity|]. apply Hap.
Qed.

(** A valid pass whose fixture write succeeds: the write, then the append
    of the record line. *)
Lemma valid_pass cfg key w :
  lower key = " " -> io_fault w (io_calls w) = NoFault ->
  snd (loop_body cfg key w)
  = after_append cfg (record_line (epoch_read w) (fixture_path cfg w)) (after_fixture cfg w).
Proof.
  intros Hkey Hf.
  rewrite (loop_body_formatter cfg key (r <- generate_valid_record cfg ;; ret (fst r)) w)
    by (rewrite Hkey; reflexivity).
  rewrite run_bind_ret, generate_valid_record_run, Hf. cbn [fst snd].
  destruct (ends_with_nonempty _ _ (record_line_newline (epoch_read w) (fixture_path cfg w)))
    as (c & s & E).
  rewrite E. reflexivity.
Qed.

(** X12: the fixture name has a resolution of one second, so two valid
    requests whose names are built in the same local second share one file:
    when every call succeeds (and the ledger is no fixture path) the second
    request rewrites the file of the first, no other file appears, and the
    ledger gains two records that name the same path. *)
Theorem valid_requests_same_second (cfg : Config) (key1 key2 : string) (w : World) :
  lower key1 = " " -> lower key2 = " " ->
  ledger_apart cfg -> all_io_ok w ->
  stamp_read (snd (loop_body cfg key1 w)) = stamp_read w ->
  let w1 := snd (loop_body cfg key1 w) in
  let w2 := snd (loop_body cfg key2 w1) in
  files w1 !! fixture_path cfg w = Some FILE_CONTENT
  /\ (forall p, p <> CSV_FILE_PATH cfg -> files w2 !! p = files w1 !! p)
  /\ ledger cfg w2
     = ledger cfg w ++ record_line (epoch_read w) (fixture_path cfg w)
                    ++ record_line (epoch_read w1) (fixture_path cfg w).
Proof.
  intros Hk1 Hk2 Hap Hok Hst w1 w2.
  assert (H1 : w1 = after_append cfg (record_line (epoch_read w) (fixture_path cfg w))
                      (after_fixture cfg w))
    by (apply valid_pass; [exact Hk1 | apply Hok]).
  assert (Hio1 : io_fault w1 = io_fault w) by apply loop_body_io_fault.
  assert (Hp : fixture_path cfg w1 = fixture_path cfg w)
    by (unfold fixture_path; fold w1 in Hst; rewrite Hst; reflexivity).
  assert (H2 : w2 = after_append cfg (record_line (epoch_read w1) (fixture_path cfg w))
                      (after_fixture cfg w1)).
  { unfold w2. rewrite (valid_pass cfg key2 w1 Hk2), Hp; [reflexivity|].
    rewrite Hio1. apply Hok. }
  assert (Hne : fixture_path cfg w <> CSV_FILE_PATH cfg)
    by (intros E; exact (Hap _ (eq_sym E))).
  assert (Hfile : files w1 !! fixture_path cfg w = Some FILE_CONTENT).
  { rewrite H1. unfold after_append, after_io. cbn [files].
    rewrite lookup_written_ne by exact Hne.
    unfold after_fixture, after_io. cbn [files after_clock].
    rewrite (Hok (io_calls w)). cbn [written]. apply lookup_insert_eq. }
  assert (Hl1 : ledger cfg w1
                = ledger cfg w ++ record_line (epoch_read w) (fixture_path cfg w)).
  { rewrite H1.
    destruct (ledger_after_append cfg (record_line (epoch_read w) (fixture_path cfg w))
                (after_fixture cfg w)) as (piece1 & -> & Hp1).
    rewrite Hp1 by (cbn [after_fixture after_io io_fault io_calls after_clock]; apply Hok).
    rewrite (ledger_after_fixture cfg w Hap). reflexivity. }
  split_conj.
  - exact Hfile.
  - intros p Hpc. rewrite H2. unfold after_append, after_io. cbn [files].
    rewrite lookup_written_ne by exact Hpc.
    unfold after_fixture, after_io. cbn [files after_clock].
    rewrite Hp, Hio1, (Hok (io_calls w1)). cbn [written].
    destruct (decide (p = fixture_path cfg w)) as [->|Hpf].
    + rewrite lookup_insert_eq, Hfile. reflexivity.
    + rewrite lookup_insert_ne; auto.
  - rewrite H2.
    destruct (ledger_after_append cfg (record_line (epoch_read w1) (fixture_path cfg w))
                (after_fixture cfg w1)) as (piece2 & -> & Hp2).
    rewrite Hp2 by (cbn [after_fixture after_io io_fault io_calls after_clock];
                    rewrite Hio1; apply Hok).
    rewrite (ledger_after_fixture cfg w1 Hap), Hl1, app_assoc_s. reflexivity.
Qed.

Lemma valid_requests_same_second_witness :
  (lower " " = " " /\ ledger_apart Samples.cfg /\ all_io_ok Samples.world
   /\ stamp_read (snd (loop_body Samples.cfg " " Samples.world)) = stamp_read Samples.world)
  /\ forall p, p <> CSV_FILE_PATH Samples.cfg ->
       files (snd (loop_body Samples.cfg " " (snd (loop_body Samples.cfg " " Samples.world))))
         !! p
       = files (snd (loop_body Samples.cfg " " Samples.world)) !! p.
Proof.
  assert (Hap : ledger_apart Samples.cfg) by (intros tm H; vm_compute in H; discriminate H).
  assert (Hok : all_io_ok Samples.world) by (intros n; reflexivity).
  assert (Hst : stamp_read (snd (loop_body Samples.cfg " " Samples.world))
                = stamp_read Samples.world) by (vm_compute; reflexivity).
  split; [split_conj; auto|].
  destruct (valid_requests_same_second Samples.cfg " " " " Samples.world)
    as (_ & H & _); auto.
Defined.

Lemma fixture_filename_matches_pattern_witness :
  (0 <= 1700000000 + utc_offset Samples.world 1700000000 < 253402300800)%Z
  /\ matches_fixture_pattern (fixture_filename (stamp_read Samples.world)) = true.
Proof.
  split; [vm_compute; split; [discriminate | reflexivity]|].
  apply (fixture_filename_matches_pattern Samples.world).
  vm_compute. split; [discriminate | reflexivity].
Defined.

Lemma div20_step a :
  (0 <= a)%Z ->
  ((a + 1) / 20 = a / 20 + (if (a + 1) mod 20 =? 0 then 1 else 0))%Z.
Proof.
  intros Ha. destruct (Z.eqb_spec ((a + 1) mod 20) 0) as [E|E];
    Z.div_mod_to_equations; lia.
Qed.

Lemma upload_step req s :
  DataRx.upload_counter (snd (DataRx.upload req s)) = (DataRx.upload_counter s + 1)%Z
  /\ DataRx.held (fst (DataRx.upload req s))
     = (if ((DataRx.upload_counter s + 1) mod 20 =? 0)%Z then 6 else 0)%Z
  /\ Z.of_nat (length (DataRx.logged (snd (DataRx.upload req s))))
     = (Z.of_nat (length (DataRx.logged s)) + 2
        + (if ((DataRx.upload_counter s + 1) mod 20 =? 0)%Z then 1 else 0))%Z.
Proof.
  unfold DataRx.upload.
  destruct ((DataRx.upload_counter s + 1) mod 20 =? 0)%Z;
    cbn [fst snd DataRx.upload_counter DataRx.held DataRx.logged];
    rewrite length_app; cbn [length]; split_conj; try reflexivity; lia.
Qed.

Lemma served_from (reqs : list DataRx.request) (s : DataRx.server) :
  (0 <= DataRx.upload_counter s)%Z ->
  let c := DataRx.upload_counter s in
  let n := Z.of_nat (length reqs) in
  (DataRx.upload_counter (served reqs s) = c + n
   /\ total_held (DataRx.serve reqs s) = 6 * ((c + n) / 20 - c / 20)
   /\ Z.of_nat (length (DataRx.logged (served reqs s)))
      = Z.of_nat (length (DataRx.logged s)) + 2 * n + ((c + n) / 20 - c / 20))%Z.
Proof.
  revert s. induction reqs as [|r reqs IH]; intros s Hc; cbv zeta.
  - cbn [served DataRx.serve total_held fold_right length]. rewrite Z.add_0_r.
    split_conj; lia.
  - destruct (upload_step r s) as (Hcnt & Hheld & Hlog).
    pose proof (div20_step _ Hc) as Hdiv.
    cbn [served DataRx.serve]. destruct (DataRx.upload r s) as [rep s'] eqn:E.
    cbn [fst snd] in *. cbn [total_held fold_right]. fold (total_held (DataRx.serve reqs s')).
    destruct (IH s' ltac:(lia)) as (I1 & I2 & I3). cbv zeta in *.
    rewrite I1, I2, I3, Hcnt, Hheld, Hlog.
    replace (Z.of_nat (length (r :: reqs))) with (Z.of_nat (length reqs) + 1)%Z
      by (cbn [length]; lia).
    replace (DataRx.upload_counter s + (Z.of_nat (length reqs) + 1))%Z
      with (DataRx.upload_counter s + 1 + Z.of_nat (length reqs))%Z by lia.
    destruct ((DataRx.upload_counter s + 1) mod 20 =? 0)%Z; split_conj; lia.
Qed.

(** X15: the upload stub over time: after [n] requests from the start of
    the process the counter is [n], exactly [n / 20] replies were held, for
    [6 * (n / 20)] seconds in all, and the log holds two lines per request
    and one more per held reply. *)
Theorem upload_totals (reqs : list DataRx.request) :
  let n := Z.of_nat (length reqs) in
  (DataRx.upload_counter (served reqs DataRx.start) = n
   /\ total_held (DataRx.serve reqs DataRx.start) = 6 * (n / 20)
   /\ Z.of_nat (length (DataRx.logged (served reqs DataRx.start))) = 2 * n + n / 20)%Z.
Proof.
  cbv zeta. destruct (served_from reqs DataRx.start) as (H1 & H2 & H3);
    [cbn; lia|]. cbv zeta in *.
  cbn [DataRx.start DataRx.upload_counter DataRx.logged length] in *.
  rewrite H1, H2, H3. rewrite !Z.add_0_l. change (0 / 20)%Z with 0%Z.
  split_conj; lia.
Qed.
